(** * Silk and Saffron chatbot webhook: the matching and ranking core

    A shallow embedding of [bot/views.py] (with the [PageContent] model of
    [bot/models.py]) and the properties of its text normalizer, query
    classifier, matcher, price path and webhook boundary.

    Modelling conventions.
    - A Python [str] is a list of Unicode code points ([N]).  [\s],
      [str.strip] and [str.split()] use CPython's full whitespace table.
      Case mapping ([str.lower], [re.IGNORECASE]) and the classes [\d] and
      [\w] are written out on ASCII, where Python fixes them; beyond ASCII
      they are read from the tables of an [environment], which every
      definition that needs them takes as a parameter.  A property stated
      for every environment therefore holds whatever the Unicode tables of
      the interpreter are (final sigma, dotted capital I, Kelvin sign,
      Arabic-Indic digits, ...).
    - A price is a double: [float] rounds the decimal text to the nearest
      binary64 value, ties to even, and overflows to infinity
      ([round_double]); [int] of an infinite price raises [OverflowError].
    - A score is one of the literals 0.9, 0.85, 0.8, 0.6, 0 or the quotient
      of two word counts, compared with the literals 0.7, 0.4 and the
      threshold.  Scores are kept as the exact rationals these doubles
      round; rounding is monotone and the quotients of counts below 2^49
      that differ from a literal differ from it by more than the spacing of
      the doubles, so each comparison comes out as it does on the doubles.
    - The module-level list [LAST_SUGGESTED_PRODUCTS] and the generator
      behind [random] form the explicit state threaded through a small
      state-and-exception monad.  The content store is read-only in
      [views.py] and is passed as the list of rows, in query order.
    - [print] writes nothing that is read back, but it raises
      [UnicodeEncodeError] on a text the console cannot encode; which
      characters it can encode is part of the [environment].  Failures of
      the database and of the console device are outside the model. *)

From Stdlib Require Import Ascii String DecimalString.
From Stdlib Require Import List Bool Arith NArith ZArith QArith Qround.
From Stdlib Require Import Lia Permutation Sorted.
Import ListNotations.
Close Scope Q_scope.
Local Open Scope list_scope.

(** ** Python strings *)

Definition char := N.
Bind Scope N_scope with char.
Definition str := list char.

Definition lit (s : string) : str := map N_of_ascii (list_ascii_of_string s).
Arguments lit s%_string.

Definition nl : char := 10%N.

Definition in_range (lo hi c : N) : bool := (N.leb lo c && N.leb c hi)%bool.

Definition is_ascii (c : char) : bool := N.ltb c 128.

(** [str.isspace] on one code point, which is also what [\s] matches. *)
Definition isspace (c : char) : bool :=
  (in_range 9 13 c || in_range 28 32 c || N.eqb c 0x85 || N.eqb c 0xA0
   || N.eqb c 0x1680 || in_range 0x2000 0x200A c || N.eqb c 0x2028
   || N.eqb c 0x2029 || N.eqb c 0x202F || N.eqb c 0x205F
   || N.eqb c 0x3000)%N%bool.

(** The capital letters of ASCII and their lower-case forms. *)
Definition isupper (c : char) : bool := in_range 65 90 c.

Definition lower_ascii (c : char) : char :=
  if isupper c then (c + 32)%N else c.

(** The ASCII characters of [\w]. *)
Definition isword_ascii (c : char) : bool :=
  (in_range 97 122 c || in_range 65 90 c || in_range 48 57 c
   || N.eqb c 95)%N%bool.

Fixpoint str_eqb (a b : str) : bool :=
  match a, b with
  | [], [] => true
  | x :: a', y :: b' => N.eqb x y && str_eqb a' b'
  | _, _ => false
  end.

(** [s.startswith(p)] *)
Fixpoint startswith (p s : str) : bool :=
  match p, s with
  | [], _ => true
  | x :: p', y :: s' => N.eqb x y && startswith p' s'
  | _ :: _, [] => false
  end.

(** [sub in s] *)
Fixpoint str_in (sub s : str) : bool :=
  startswith sub s ||
  match s with
  | [] => false
  | _ :: s' => str_in sub s'
  end.

(** [any(word in text for word in words)] *)
Definition mentions (text : str) (words : list str) : bool :=
  existsb (fun word => str_in word text) words.

(** [x in l] for a list of strings *)
Definition list_in (x : str) (l : list str) : bool := existsb (str_eqb x) l.

(** Truth value of a string. *)
Definition nonempty (s : str) : bool :=
  match s with [] => false | _ :: _ => true end.

(** The pieces of [s] between the characters satisfying [sep]; never the
    empty list.  [s.split(c)] for a one-character separator. *)
Fixpoint fields (sep : char -> bool) (s : str) : list str :=
  match s with
  | [] => [[]]
  | c :: s' =>
      if sep c then [] :: fields sep s'
      else match fields sep s' with
           | w :: ws => (c :: w) :: ws
           | [] => [[c]]
           end
  end.

Definition split_on (c : char) (s : str) : list str := fields (N.eqb c) s.

(** [s.split()]: runs of whitespace separate, no empty word is produced. *)
Definition split (s : str) : list str := filter nonempty (fields isspace s).

Fixpoint lstrip (s : str) : str :=
  match s with
  | c :: s' => if isspace c then lstrip s' else s
  | [] => []
  end.

Definition rstrip (s : str) : str := rev (lstrip (rev s)).

(** [s.strip()] *)
Definition strip (s : str) : str := rstrip (lstrip s).

(** [sep.join(l)] *)
Fixpoint join (sep : str) (l : list str) : str :=
  match l with
  | [] => []
  | [x] => x
  | x :: l' => x ++ sep ++ join sep l'
  end.

(** [s.rfind(c)], [None] standing for -1. *)
Fixpoint rfind (c : char) (s : str) : option nat :=
  match s with
  | [] => None
  | x :: s' =>
      match rfind c s' with
      | Some i => Some (S i)
      | None => if N.eqb x c then Some 0 else None
      end
  end.

(** [str(n)] for a natural number. *)
Definition str_of_N (n : N) : str := lit (NilZero.string_of_uint (N.to_uint n)).

(** [str(z)] for an integer. *)
Definition str_of_Z (z : Z) : str :=
  match z with
  | Zneg p => lit "-" ++ str_of_N (Npos p)
  | _ => str_of_N (Z.to_N z)
  end.

(** ** Doubles

    The non-negative values of a Python float: the finite doubles, kept as
    the rationals they are, and infinity. *)

Inductive pyfloat : Type :=
| Finite (q : Q)
| Infinity.

(** [n / d >= 2 ^ k] *)
Definition at_least_pow2 (n d k : Z) : bool :=
  if (0 <=? k)%Z then (d * 2 ^ k <=? n)%Z else (d <=? n * 2 ^ (- k))%Z.

(** The integer nearest to [num / den], ties to the even one. *)
Definition round_half_even (num den : Z) : Z :=
  let q := (num / den)%Z in
  let r := (num mod den)%Z in
  match (2 * r ?= den)%Z with
  | Lt => q
  | Gt => (q + 1)%Z
  | Eq => if Z.even q then q else (q + 1)%Z
  end.

(** The double nearest to [n / d]: a 53-bit significand [m] scaled by
    [2 ^ e], with [e] no less than the subnormal exponent -1074, and infinity
    from [2 ^ 1024] on. *)
Definition round_double (n : N) (d : positive) : pyfloat :=
  match n with
  | N0 => Finite 0%Q
  | Npos p =>
      let n := Zpos p in
      let d := Zpos d in
      let e0 := (Z.log2 n - Z.log2 d)%Z in
      let l := if at_least_pow2 n d e0 then e0 else (e0 - 1)%Z in
      let e := Z.max (l - 52) (-1074) in
      if (0 <=? e)%Z then
        let m := round_half_even n (d * 2 ^ e) in
        if (2 ^ 1024 <=? m * 2 ^ e)%Z then Infinity
        else Finite (m * 2 ^ e # 1)%Q
      else
        let m := round_half_even (n * 2 ^ (- e)) d in
        Finite (m # Z.to_pos (2 ^ (- e)))%Q
  end.

(** [x <= y] on floats. *)
Definition float_le (x y : pyfloat) : bool :=
  match x, y with
  | Finite a, Finite b => Qle_bool a b
  | _, Infinity => true
  | Infinity, Finite _ => false
  end.

(** ** Dynamically typed values

    What [json.loads] produces, and so what the webhook may find under
    [queryText]. *)

#[local] Unset Elimination Schemes.
Inductive json : Type :=
| JNull
| JBool (b : bool)
| JNum (q : Q)
| JStr (s : str)
| JArr (items : list json)
| JObj (members : list (str * json)).
#[local] Set Elimination Schemes.

(** ** The interpreter's tables and the console *)

Record environment : Type := mkEnvironment {
  (** [str.lower] at a character beyond ASCII: what replaces the character,
      given the characters before it (nearest first) and those after it *)
  lower_beyond_ascii : str -> char -> str -> str;
  (** [re.IGNORECASE]: whether a pattern character and a text character,
      one of them beyond ASCII, are the same up to case *)
  same_ignoring_case : char -> char -> bool;
  (** the characters of [\w] beyond ASCII *)
  word_beyond_ascii : char -> bool;
  (** the decimal digits beyond ASCII, which [\d] matches and [float]
      reads, with their values *)
  digit_beyond_ascii : char -> option N;
  (** the characters the encoding of the console has *)
  encodable : char -> bool;
  (** [str(v)] for a value that is not a string *)
  str_of_value : json -> str;
  (** [f"{x:.2f}"] *)
  format_2f : Q -> str
}.

(** The environment of the closed examples: no letter, word character or
    digit beyond ASCII, and a console that encodes every character. *)
Definition plain : environment :=
  {| lower_beyond_ascii := fun _ c _ => [c];
     same_ignoring_case := N.eqb;
     word_beyond_ascii := fun _ => false;
     digit_beyond_ascii := fun _ => None;
     encodable := fun _ => true;
     str_of_value := fun _ => [];
     format_2f := fun _ => [] |}.

(** ** Regular expressions

    The subset of [re] the program uses, matched by backtracking in
    Python's priority order (greedy repetition first). *)

Inductive regex : Type :=
| Lit (c : char)
| AnyChar
| Class (p : char -> bool)
| Seq (r1 r2 : regex)
| Star (r : regex)
| Opt (r : regex)
| Eos
| Eps.

Definition Plus (r : regex) : regex := Seq r (Star r).

Fixpoint Rep (n : nat) (r : regex) : regex :=
  match n with
  | O => Eps
  | S n' => Seq r (Rep n' r)
  end.

Fixpoint lits_of (s : str) : regex :=
  match s with
  | [] => Eps
  | [c] => Lit c
  | c :: s' => Seq (Lit c) (lits_of s')
  end.

(** The pattern matching the literal text [s]. *)
Definition Lits (s : string) : regex := lits_of (lit s).
Arguments Lits s%_string.

(** ** Content store *)

Record PageContent : Type := mkPage {
  url : str;
  page : str;
  title : option str;
  content : str;
  page_type : str;
  is_active : bool
}.

(** [PageContent.objects.all()] *)
Definition objects_all (db : list PageContent) : list PageContent := db.

(** [PageContent.objects.filter(page_type=t)] *)
Definition objects_filter_page_type (t : str) (db : list PageContent)
  : list PageContent :=
  filter (fun p => str_eqb (page_type p) t) db.

(** [x or default] for an optional string. *)
Definition or_else (x : option str) (default : str) : str :=
  match x with
  | Some (c :: s) => c :: s
  | _ => default
  end.

(** Truth value of a list. *)
Definition nonempty_list {A : Type} (l : list A) : bool :=
  match l with [] => false | _ :: _ => true end.

(** Truth value of an optional string. *)
Definition truthy (x : option str) : bool :=
  match x with
  | Some (_ :: _) => true
  | _ => false
  end.

(** [f"{x}"] for an optional string. *)
Definition fmt_opt (x : option str) : str :=
  match x with
  | Some s => s
  | None => lit "None"
  end.

(** ** Stable sorting, as [list.sort] does *)

Fixpoint insert_by {A : Type} (before : A -> A -> bool) (x : A) (l : list A)
  : list A :=
  match l with
  | [] => [x]
  | y :: l' => if before x y then x :: l else y :: insert_by before x l'
  end.

Definition sort_by {A : Type} (before : A -> A -> bool) (l : list A) : list A :=
  fold_right (insert_by before) [] l.

(** ** Process state and effects *)

Record state : Type := mkState {
  LAST_SUGGESTED_PRODUCTS : list str;
  random_source : list nat
}.

Inductive exn : Type :=
| AttributeError
| TypeError
| OverflowError
| UnicodeEncodeError.

(** A computation that reads and writes no global: a value, or an
    exception. *)
Inductive result (A : Type) : Type :=
| Value (a : A)
| Error (e : exn).
Arguments Value {A} a.
Arguments Error {A} e.

Inductive outcome (A : Type) : Type :=
| Returned (a : A) (st : state)
| Raised (e : exn) (st : state).
Arguments Returned {A} a st.
Arguments Raised {A} e st.

Definition M (A : Type) : Type := state -> outcome A.

Definition ret {A : Type} (a : A) : M A := fun st => Returned a st.

Definition bind {A B : Type} (m : M A) (f : A -> M B) : M B :=
  fun st =>
    match m st with
    | Returned a st' => f a st'
    | Raised e st' => Raised e st'
    end.

Definition raise {A : Type} (e : exn) : M A := fun st => Raised e st.

(** A call of a function that touches no global. *)
Definition call {A : Type} (r : result A) : M A :=
  fun st =>
    match r with
    | Value a => Returned a st
    | Error e => Raised e st
    end.

Notation "x <- m ;; f" := (bind m (fun x => f))
  (at level 61, m at next level, right associativity).
Notation "m ;; f" := (bind m (fun _ => f))
  (at level 61, right associativity).

Definition get_suggested : M (list str) :=
  fun st => Returned (LAST_SUGGESTED_PRODUCTS st) st.

Definition set_suggested (l : list str) : M unit :=
  fun st => Returned tt (mkState l (random_source st)).

(** [LAST_SUGGESTED_PRODUCTS.append(u)] *)
Definition suggested_append (u : str) : M unit :=
  l <- get_suggested ;; set_suggested (l ++ [u]).

(** [LAST_SUGGESTED_PRODUCTS.pop(0)], called on a non-empty list only. *)
Definition suggested_pop0 : M unit :=
  l <- get_suggested ;; set_suggested (tl l).

(** [LAST_SUGGESTED_PRODUCTS.clear()] *)
Definition suggested_clear : M unit := set_suggested [].

(** The next draw of the generator, reduced below [n]. *)
Definition randbelow (n : nat) : M nat :=
  fun st =>
    Returned (hd 0 (random_source st) mod n)
             (mkState (LAST_SUGGESTED_PRODUCTS st) (tl (random_source st))).

(** [random.choice(l)] for a list with first element [d]. *)
Definition random_choice {A : Type} (d : A) (l : list A) : M A :=
  i <- randbelow (length l) ;; ret (nth i l d).

Fixpoint remove_nth {A : Type} (i : nat) (l : list A) : list A :=
  match i, l with
  | _, [] => []
  | O, _ :: l' => l'
  | S i', x :: l' => x :: remove_nth i' l'
  end.

(** [random.sample(population, k)]: [k] successive draws without
    replacement. *)
Fixpoint random_sample {A : Type} (population : list A) (k : nat)
  : M (list A) :=
  match k, population with
  | S k', d :: _ =>
      i <- randbelow (length population) ;;
      rest <- random_sample (remove_nth i population) k' ;;
      ret (nth i population d :: rest)
  | _, _ => ret []
  end.

(** The state of a fresh process. *)
Definition initial_state (draws : list nat) : state := mkState [] draws.

(** What the memory holds after [u] is recorded: appended, then the oldest
    entry dropped when the list has outgrown ten. *)
Definition recorded (suggested : list str) (u : str) : list str :=
  if 10 <? length (suggested ++ [u]) then tl (suggested ++ [u])
  else suggested ++ [u].

(** The bound on the recent-suggestions memory, and the computations that
    keep it whether they return or raise. *)
Definition bounded (st : state) : Prop :=
  length (LAST_SUGGESTED_PRODUCTS st) <= 10.

Definition keeps_bound {A : Type} (m : M A) : Prop :=
  forall st, bounded st ->
    match m st with
    | Returned _ st' => bounded st'
    | Raised _ st' => bounded st'
    end.

(** A text whose only whitespace is single spaces: every whitespace
    character is a space and is not followed by whitespace. *)
Fixpoint well_spaced (s : str) : bool :=
  match s with
  | [] => true
  | c :: s' =>
      (if isspace c
       then N.eqb c 32
            && match s' with
               | c' :: _ => negb (isspace c')
               | [] => true
               end
       else true)
      && well_spaced s'
  end.

(** A token that is not empty and holds no whitespace. *)
Definition separable (token : str) : bool :=
  nonempty token && forallb (fun c => negb (isspace c)) token.

(** ** Requests, responses and the texts of the replies *)

Record request : Type := mkRequest {
  method : str;
  (** what [json.loads(request.body.decode("utf-8"))] gives: the decoded
      value, or the message of the exception it raises *)
  body : str + json
}.

Record JsonResponse : Type := mkResponse {
  payload : list (str * json);
  status : nat
}.

Fixpoint assoc (key : str) (members : list (str * json)) : option json :=
  match members with
  | [] => None
  | (k, v) :: rest => if str_eqb k key then Some v else assoc key rest
  end.

(** [d.get(key, default)]; only a dict has the method. *)
Definition dict_get (d : json) (key : str) (default : json) : M json :=
  match d with
  | JObj members =>
      match assoc key members with
      | Some v => ret v
      | None => ret default
      end
  | _ => raise AttributeError
  end.

Definition json_is_str (v : json) (s : str) : bool :=
  match v with
  | JStr x => str_eqb x s
  | _ => false
  end.

(** [v.lower()] on a dynamically typed value. *)
Definition dyn_lower_arg (v : json) : M str :=
  match v with
  | JStr s => ret s
  | _ => raise AttributeError
  end.

(** The argument of [re.search] inside [detect_language]. *)
Definition dyn_search_arg (v : json) : M str :=
  match v with
  | JStr s => ret s
  | _ => raise TypeError
  end.

Definition star_emoji : str := [0x1F31F%N].
Definition smile_emoji : str := [0x1F60A%N].
Definition sparkles : str := [0x2728%N].
Definition speech_balloon : str := [0x1F4AC%N].
Definition bullet : str := [0x2022%N].
Definition dizzy : str := [0x1F4AB%N].
Definition waving_hand : str := [0x1F44B%N].
Definition warning_sign : str := [0x26A0%N; 0xFE0F%N].
Definition direct_hit : str := [0x1F3AF%N].
Definition check_mark : str := [0x2705%N].
Definition cross_mark : str := [0x274C%N].
Definition arrows : str := [0x1F504%N].
Definition memo : str := [0x1F4DD%N].
Definition outbox : str := [0x1F4E4%N].

(** ['='*50] *)
Definition rule : str := repeat 61%N 50.

Inductive language : Type := urdu | english.

Definition clarification_prompt (lang : language) : str :=
  match lang with
  | urdu =>
      lit "Maaf kijiye! Kya aap apna sawal thoda detail mein puch sakte hain?"
  | english => lit "Sorry! Could you please provide more details?"
  end.

(** [not answer or len(answer.strip()) < 5] *)
Definition too_short (answer : str) : bool :=
  negb (nonempty answer) || (length (strip answer) <? 5).

Definition fulfillment (answer : str) : JsonResponse :=
  mkResponse
    [ (lit "fulfillmentText", JStr answer);
      (lit "fulfillmentMessages",
       JArr [JObj [(lit "text", JObj [(lit "text", JArr [JStr answer])])]]);
      (lit "source", JStr (lit "webhook")) ]
    200.

(** The reply to a body that does not decode. *)
Definition invalid_request : JsonResponse :=
  mkResponse
    [(lit "fulfillmentText", JStr (warning_sign ++ lit " Invalid request."))]
    400.

(** The [fulfillmentText] a response carries. *)
Definition fulfillmentText (r : JsonResponse) : option str :=
  match assoc (lit "fulfillmentText") (payload r) with
  | Some (JStr s) => Some s
  | _ => None
  end.

(** The two reads of the body: [queryResult.queryText] and
    [queryResult.intent.displayName], with their defaults. *)
Definition query_and_intent (body : json) : M (json * json) :=
  query_result <- dict_get body (lit "queryResult") (JObj []) ;;
  user_query <- dict_get query_result (lit "queryText") (JStr []) ;;
  query_result <- dict_get body (lit "queryResult") (JObj []) ;;
  intent_obj <- dict_get query_result (lit "intent") (JObj []) ;;
  intent <- dict_get intent_obj (lit "displayName") (JStr []) ;;
  ret (user_query, intent).

(** * The program, over the tables of an environment *)

Section Program.
Variable env : environment.

(** ** Case and character classes *)

(** [s.lower()], character by character; [before] holds the characters
    already passed, nearest first. *)
Fixpoint lower_from (before s : str) : str :=
  match s with
  | [] => []
  | c :: after =>
      (if is_ascii c then [lower_ascii c]
       else lower_beyond_ascii env before c after)
      ++ lower_from (c :: before) after
  end.

Definition lower (s : str) : str := lower_from [] s.

(** [\w] *)
Definition isword (c : char) : bool :=
  if is_ascii c then isword_ascii c else word_beyond_ascii env c.

(** The value of a decimal digit. *)
Definition digit_value (c : char) : option N :=
  if is_ascii c then (if in_range 48 57 c then Some (c - 48)%N else None)
  else digit_beyond_ascii env c.

(** [\d] *)
Definition isdigit (c : char) : bool :=
  match digit_value c with Some _ => true | None => false end.

(** ** Matching *)

Definition lit_matches (ignorecase : bool) (c x : char) : bool :=
  if ignorecase then
    if is_ascii c && is_ascii x then N.eqb (lower_ascii c) (lower_ascii x)
    else same_ignoring_case env c x
  else N.eqb c x.

(** [rmatch ic r s k]: match [r] at the start of [s] and hand the rest of
    the input to [k]; on failure of [k] backtrack into [r]. *)
Fixpoint rmatch {A : Type} (ic : bool) (r : regex) (s : str)
         (k : str -> option A) {struct r} : option A :=
  match r with
  | Lit c =>
      match s with
      | x :: s' => if lit_matches ic c x then k s' else None
      | [] => None
      end
  | AnyChar =>
      match s with
      | x :: s' => if N.eqb x nl then None else k s'
      | [] => None
      end
  | Class p =>
      match s with
      | x :: s' => if p x then k s' else None
      | [] => None
      end
  | Seq r1 r2 => rmatch ic r1 s (fun s1 => rmatch ic r2 s1 k)
  | Star r' =>
      (fix loop (fuel : nat) (s : str) {struct fuel} : option A :=
         match fuel with
         | O => k s
         | S fuel' =>
             match rmatch ic r' s
                     (fun s1 => if length s1 <? length s
                                then loop fuel' s1 else None) with
             | Some a => Some a
             | None => k s
             end
         end) (length s) s
  | Opt r' =>
      match rmatch ic r' s k with
      | Some a => Some a
      | None => k s
      end
  | Eos =>
      match s with
      | [] => k s
      | [c] => if N.eqb c nl then k s else None
      | _ => None
      end
  | Eps => k s
  end.

(** Number of characters of the match of [r] at the start of [s]. *)
Definition match_len (ic : bool) (r : regex) (s : str) : option nat :=
  rmatch ic r s (fun rest => Some (length s - length rest)).

(** [re.match(r, s)] as a truth value. *)
Definition re_match (ic : bool) (r : regex) (s : str) : bool :=
  match match_len ic r s with Some _ => true | None => false end.

(** [re.search(pre(grp), s).group(1)]: the text of the group at the leftmost
    match of the pattern [pre] followed by the group [grp]. *)
Fixpoint re_search_group (ic : bool) (pre grp : regex) (s : str) : option str :=
  match rmatch ic pre s
          (fun s1 => rmatch ic grp s1
             (fun s2 => Some (firstn (length s1 - length s2) s1))) with
  | Some g => Some g
  | None =>
      match s with
      | [] => None
      | _ :: s' => re_search_group ic pre grp s'
      end
  end.

(** [re.search(r, s)] as a truth value. *)
Definition re_search (ic : bool) (r : regex) (s : str) : bool :=
  match re_search_group ic Eps r s with Some _ => true | None => false end.

(** [re.sub(r, repl, s)]: [skip] counts the characters of the current
    match still to be dropped.  Every pattern of the program consumes at
    least one character, so the rules of [re.sub] for empty matches never
    apply. *)
Fixpoint re_sub_from (ic : bool) (r : regex) (repl : str) (skip : nat)
         (s : str) : str :=
  match s with
  | [] => []
  | c :: s' =>
      match skip with
      | S n => re_sub_from ic r repl n s'
      | O =>
          match match_len ic r s with
          | Some (S n) => repl ++ re_sub_from ic r repl n s'
          | _ => c :: re_sub_from ic r repl 0 s'
          end
      end
  end.

Definition re_sub (ic : bool) (r : regex) (repl : str) (s : str) : str :=
  re_sub_from ic r repl 0 s.

(** ** Text normalizer *)

Definition noise_patterns : list regex :=
  [ Lits "skip to content";
    Lits "your cart is empty";
    Lits "continue shopping";
    Lits "have an account?";
    Lits "log in to check out";
    Lits "estimated total";
    Seq (Lits "taxes") (Seq (Star AnyChar) (Lits "calculated at checkout"));
    Lits "check out";
    Lits "loading...";
    Lits "add to cart";
    Lits "view cart";
    Seq (Lits "home") (Seq (Star AnyChar) (Lits "clearance sale"));
    Seq (Lits "co-ord sets") (Seq (Star AnyChar) (Lits "elegant floral"));
    Seq (Lits "cart") (Seq (Star AnyChar) (Lits "loading"));
    Seq (Lits "Rs ") (Seq (Plus (Class isdigit))
                          (Seq (Lit 46) (Plus (Class isdigit)))) ].

(** [^[^\w\s]+$] *)
Definition only_special : regex :=
  Seq (Plus (Class (fun c => negb (isword c) && negb (isspace c)))) Eos.

Definition clean_scraped_text (text : str) : str :=
  if negb (nonempty text) then []
  else
    let cleaned :=
      fold_left (fun cleaned pattern => re_sub true pattern [] cleaned)
                noise_patterns text in
    let cleaned := re_sub false (Plus (Class isspace)) (lit " ") cleaned in
    let cleaned := re_sub false (Plus (Lit nl)) [nl] cleaned in
    let lines :=
      map strip (filter (fun line => nonempty (strip line))
                        (split_on nl cleaned)) in
    let meaningful_lines :=
      filter (fun line => (10 <? length line)
                          && negb (re_match false only_special line))
             lines in
    strip (join (lit " ") meaningful_lines).

Definition nav_terms : list str :=
  [lit "home"; lit "cart"; lit "checkout"; lit "log in"; lit "sign up"].

Definition extract_product_info (text : str) (title : option str) : str :=
  let cleaned := clean_scraped_text text in
  let sentences := split_on 46 cleaned in
  let product_sentences :=
    filter (fun sent =>
              let word_count := length (split sent) in
              (5 <=? word_count) && (word_count <=? 100)
              && negb (mentions (lower sent) nav_terms))
           (map strip sentences) in
  match product_sentences with
  | _ :: _ =>
      let result := join (lit ". ") (firstn 3 product_sentences) in
      if nonempty result then result ++ lit "." else firstn 300 cleaned
  | [] => firstn 300 cleaned
  end.

(** ** Query classifier *)

(** [[؀-ۿ]] *)
Definition arabic_block (c : char) : bool := in_range 0x600 0x6FF c.

Definition urdu_words : list str :=
  [lit "mujhe"; lit "kaun"; lit "kon"; lit "kaha"; lit "dikhao"; lit "dikho";
   lit "kya"; lit "kaise"; lit "batao"; lit "chahiye"; lit "hai"; lit "ki";
   lit "ap"].

Definition detect_language (text : str) : language :=
  if re_search false (Class arabic_block) text then urdu
  else if mentions (lower text) urdu_words then urdu
  else english.

(** The classifier as the specification words it: Urdu when the text has a
    character of the Arabic block, or when one of the whitespace-separated
    words of the text, lower-cased so that case does not count, contains a
    token of the Romanized-Urdu list. *)
Definition word_has_urdu_token (w : str) : bool :=
  existsb (fun token => str_in token w) urdu_words.

Definition detect_language_spec (text : str) : language :=
  if existsb arabic_block text
     || existsb word_has_urdu_token (split (lower text))
  then urdu else english.

(** ** Price path *)

Record priced : Type := mkPriced {
  p_title : option str;
  p_price : pyfloat;
  p_content : str
}.

(** [Rs\.?] followed by the group [\d+(?:,\d{3})*(?:\.\d{2})?] *)
Definition price_prefix : regex := Seq (Lits "Rs") (Opt (Lit 46)).
Definition price_group : regex :=
  Seq (Plus (Class isdigit))
      (Seq (Star (Seq (Lit 44) (Rep 3 (Class isdigit))))
           (Opt (Seq (Lit 46) (Rep 2 (Class isdigit))))).

Fixpoint digits_value (acc : N) (s : str) : option N :=
  match s with
  | [] => Some acc
  | c :: s' =>
      match digit_value c with
      | Some d => digits_value (acc * 10 + d)%N s'
      | None => None
      end
  end.

(** [float(s)] on a text of decimal digits with at most one point, which is
    all the price pattern can capture: the double nearest to the decimal. *)
Definition float_of (s : str) : option pyfloat :=
  match split_on 46 s with
  | [i] =>
      match i, digits_value 0 i with
      | _ :: _, Some n => Some (round_double n 1)
      | _, _ => None
      end
  | [i; f] =>
      match nonempty i || nonempty f, digits_value 0 i, digits_value 0 f with
      | true, Some n, Some m =>
          let scale := (10 ^ N.of_nat (length f))%N in
          Some (round_double (n * scale + m) (N.succ_pos (N.pred scale)))
      | _, _, _ => None
      end
  | _ => None
  end.

(** [s.replace(',', '')] *)
Definition remove_commas (s : str) : str := filter (fun c => negb (N.eqb c 44)) s.

Definition products_with_price (all_products : list PageContent) : list priced :=
  flat_map (fun product =>
    match re_search_group false price_prefix price_group (content product) with
    | Some price_str =>
        match float_of (remove_commas price_str) with
        | Some price =>
            [mkPriced (title product) price (firstn 300 (content product))]
        | None => []
        end
    | None => []
    end) all_products.

Definition cheap_keywords : list str :=
  [lit "sasta"; lit "cheap"; lit "budget"; lit "affordable"].

(** [int(x)] *)
Definition int_of_float (x : pyfloat) : result Z :=
  match x with
  | Finite q => Value (Qfloor q)
  | Infinity => Error OverflowError
  end.

(** The numbered lines appended by the [enumerate] loop, starting at [i]. *)
Fixpoint price_lines (i : nat) (selected_products : list priced)
  : result str :=
  match selected_products with
  | [] => Value []
  | p :: rest =>
      match int_of_float (p_price p) with
      | Value rupees =>
          match price_lines (S i) rest with
          | Value lines =>
              Value (str_of_N (N.of_nat i) ++ lit ". " ++ fmt_opt (p_title p)
                     ++ lit " - Rs." ++ str_of_Z rupees ++ [nl] ++ lines)
          | Error e => Error e
          end
      | Error e => Error e
      end
  end.

Definition by_price_ascending (x y : priced) : bool :=
  float_le (p_price x) (p_price y).
Definition by_price_descending (x y : priced) : bool :=
  float_le (p_price y) (p_price x).

(** The three products the price path lists. *)
Definition selected_products (query_lower : str) (with_price : list priced)
  : list priced :=
  if mentions query_lower cheap_keywords
  then firstn 3 (sort_by by_price_ascending with_price)
  else firstn 3 (sort_by by_price_descending with_price).

Definition handle_price_query (db : list PageContent) (query_lower : str)
  : result (option str * Q * option str) :=
  let language := detect_language query_lower in
  let all_products := objects_filter_page_type (lit "product") db in
  let with_price := products_with_price all_products in
  match with_price with
  | [] => Value (None, 0%Q, None)
  | _ :: _ =>
      let response :=
        if mentions query_lower cheap_keywords then
          match language with
          | urdu => star_emoji ++ lit " Sabse saste options:" ++ [nl; nl]
          | english => star_emoji ++ lit " Most affordable options:" ++ [nl; nl]
          end
        else
          match language with
          | urdu => star_emoji ++ lit " Premium options:" ++ [nl; nl]
          | english => star_emoji ++ lit " Premium options:" ++ [nl; nl]
          end in
      match price_lines 1 (selected_products query_lower with_price) with
      | Value lines =>
          let response := response ++ lines in
          let response :=
            match language with
            | urdu =>
                response ++ [nl] ++ lit "Kaunsa dekhna chahein? " ++ smile_emoji
            | english =>
                response ++ [nl] ++ lit "Which one would you like to see? "
                ++ smile_emoji
            end in
          Value (Some response, (95 # 100)%Q, Some (lit "Price Comparison"))
      | Error e => Error e
      end
  end.

(** ** Console *)

(** [print(text)] writes the text and a newline. *)
Definition printable (text : str) : bool :=
  forallb (encodable env) (text ++ [nl]).

Definition print (text : str) : M unit :=
  fun st =>
    if printable text then Returned tt st else Raised UnicodeEncodeError st.

(** [f"{v}"] *)
Definition fmt_value (v : json) : str :=
  match v with
  | JStr s => s
  | _ => str_of_value env v
  end.

(** ** Matcher *)

Definition price_keywords : list str :=
  [lit "sasta"; lit "cheap"; lit "mehnga"; lit "expensive"; lit "price";
   lit "budget"].

Definition colors : list str :=
  [lit "red"; lit "blue"; lit "green"; lit "black"; lit "white"; lit "pink";
   lit "yellow"; lit "purple"].

Definition categories : list str :=
  [lit "dress"; lit "saree"; lit "suit"; lit "kurta"; lit "shirt"; lit "pant";
   lit "dupatta"].

Record candidate : Type := mkCandidate {
  c_page : PageContent;
  c_score : Q;
  c_excerpt : str;
  c_title : str
}.

(** [matches / len(query_words)] *)
Definition ratio (matches total : nat) : Q :=
  (Z.of_nat matches # Pos.of_nat total)%Q.

(** The cleaned content the loop scores a page against. *)
Definition clean_content_of (p : PageContent) : str :=
  extract_product_info (content p) (title p).

(** Score and excerpt the loop body computes for one page. *)
Definition score_page (user_query_lower : str) (p : PageContent) : Q * str :=
  let query_words :=
    filter (fun w => 2 <? length w) (split user_query_lower) in
  let query_colors := filter (fun c => str_in c user_query_lower) colors in
  let query_categories :=
    filter (fun c => str_in c user_query_lower) categories in
  let title_lower := lower (or_else (title p) []) in
  let clean_content := clean_content_of p in
  let clean_content_lower := lower clean_content in
  if str_in user_query_lower clean_content_lower then
    ((9 # 10)%Q, clean_content)
  else if str_in user_query_lower title_lower then
    ((85 # 100)%Q, clean_content)
  else if nonempty_list query_colors && nonempty_list query_categories then
    let color_match :=
      existsb (fun c => str_in c clean_content_lower) query_colors in
    let category_match :=
      existsb (fun c => str_in c clean_content_lower) query_categories in
    if color_match && category_match then ((8 # 10)%Q, clean_content)
    else if color_match || category_match then ((6 # 10)%Q, clean_content)
    else (0%Q, [])
  else if nonempty_list query_words then
    let matches :=
      length (filter (fun word => str_in word clean_content_lower)
                     query_words) in
    let score := ratio matches (length query_words) in
    if negb (Qle_bool score (4 # 10)) then (score, clean_content)
    else (score, [])
  else (0%Q, []).

(** The list [all_matches] at the end of the loop over the pages. *)
Definition all_matches (db : list PageContent) (user_query_lower : str)
           (threshold : Q) (suggested : list str) : list candidate :=
  flat_map (fun p =>
    let '(score, excerpt) := score_page user_query_lower p in
    if Qle_bool threshold score && nonempty excerpt
       && negb (list_in (url p) suggested)
    then [mkCandidate p score excerpt (or_else (title p) (lit "Product"))]
    else []) (objects_all db).

Definition by_score_descending (x y : candidate) : bool :=
  Qle_bool (c_score y) (c_score x).

Definition search_in_scraped_content (db : list PageContent)
           (user_query : str) (threshold : Q)
  : M (option str * Q * option str) :=
  let user_query_lower := lower user_query in
  if mentions user_query_lower price_keywords then
    call (handle_price_query db user_query_lower)
  else
    suggested <- get_suggested ;;
    match sort_by by_score_descending
            (all_matches db user_query_lower threshold suggested) with
    | best :: rest =>
        selected <-
          (if negb (Qle_bool (c_score best) (7 # 10)) then ret best
           else random_choice best (firstn 3 (best :: rest))) ;;
        suggested_append (url (c_page selected)) ;;
        suggested <- get_suggested ;;
        (if 10 <? length suggested then suggested_pop0 else ret tt) ;;
        ret (Some (c_excerpt selected), c_score selected,
             Some (c_title selected))
    | [] => ret (None, 0%Q, None)
    end.

(** ** Response formatter *)

Definition format_scraped_response (excerpt query : str) (lang : language)
           (title : option str) : str :=
  let excerpt_clean := strip excerpt in
  let excerpt_clean :=
    if 300 <? length excerpt_clean then
      let excerpt_clean := firstn 300 excerpt_clean in
      match rfind 46 excerpt_clean with
      | Some last_period =>
          if 100 <? last_period then firstn (last_period + 1) excerpt_clean
          else firstn 300 excerpt_clean ++ lit "..."
      | None => firstn 300 excerpt_clean ++ lit "..."
      end
    else excerpt_clean in
  let titled :=
    truthy title
    && negb (str_eqb (lower (or_else title [])) (lit "product")) in
  match lang with
  | urdu =>
      if titled then
        sparkles ++ lit " **" ++ or_else title [] ++ lit "**" ++ [nl; nl]
        ++ excerpt_clean ++ [nl; nl] ++ speech_balloon
        ++ lit " Aur details chahiye?"
      else
        excerpt_clean ++ [nl; nl] ++ speech_balloon
        ++ lit " Kya aur janana chahein?"
  | english =>
      if titled then
        sparkles ++ lit " **" ++ or_else title [] ++ lit "**" ++ [nl; nl]
        ++ excerpt_clean ++ [nl; nl] ++ lit "Want more details?"
      else excerpt_clean ++ [nl; nl] ++ lit "Need more info?"
  end.

(** ** Alternatives *)

Definition get_diverse_product_samples (db : list PageContent) (limit : nat)
  : M (list PageContent) :=
  let all_pages := objects_all db in
  suggested <- get_suggested ;;
  let available_pages :=
    filter (fun p => negb (list_in (url p) suggested)) all_pages in
  available_pages <-
    (match available_pages with
     | [] => suggested_clear ;; ret all_pages
     | _ :: _ => ret available_pages
     end) ;;
  if limit <? length available_pages then random_sample available_pages limit
  else ret available_pages.

(** [Price:\s*] followed by the group [[^\n]+] *)
Definition price_label : regex := Seq (Lits "Price:") (Star (Class isspace)).
Definition rest_of_line : regex := Plus (Class (fun c => negb (N.eqb c nl))).

Definition suggestion_line (p : PageContent) : str :=
  let title := or_else (title p) (lit "Product") in
  let price :=
    match re_search_group false price_label rest_of_line (content p) with
    | Some g => g
    | None => []
    end in
  if nonempty price then bullet ++ lit " " ++ title ++ lit " - " ++ price
  else bullet ++ lit " " ++ title.

Definition get_direct_alternatives (db : list PageContent) (user_query : str)
           (lang : language) : M str :=
  products <- get_diverse_product_samples db 5 ;;
  match products with
  | [] =>
      match lang with
      | urdu =>
          ret (lit "Maaf kijiye! Abhi products load nahi ho rahe. Thodi der baad try karein.")
      | english =>
          ret (lit "Sorry! Products not available right now. Please try again later.")
      end
  | _ :: _ =>
      let suggestions := map suggestion_line (firstn 3 products) in
      let suggestions_text := join [nl] suggestions in
      match lang with
      | urdu =>
          ret (lit "Yeh options dekh sakte hain:" ++ [nl; nl]
               ++ suggestions_text ++ [nl; nl] ++ lit "Kaunsa pasand aaya? "
               ++ smile_emoji)
      | english =>
          ret (lit "Here are some options:" ++ [nl; nl] ++ suggestions_text
               ++ [nl; nl]
               ++ lit "Which one would you like to know more about? "
               ++ smile_emoji)
      end
  end.

(** ** Intent handlers

    The webhook hands over whatever JSON value sits under [queryText]; the
    handlers print it first, and the string methods they call next raise on
    anything but a string. *)

Definition handle_llm_query_intent (db : list PageContent) (user_query : json)
  : M str :=
  print (direct_hit ++ lit " LLMQueryIntent triggered for: "
         ++ fmt_value user_query) ;;
  query <- dyn_lower_arg user_query ;;
  found <- search_in_scraped_content db query (3 # 10)%Q ;;
  let '(scraped_excerpt, confidence, title) := found in
  let lang := detect_language query in
  if truthy scraped_excerpt && negb (Qle_bool confidence (7 # 10)) then
    print (check_mark ++ lit " HIGH confidence (" ++ format_2f env confidence
           ++ lit ") - Direct scraped response") ;;
    ret (format_scraped_response (or_else scraped_excerpt []) query lang title)
  else if truthy scraped_excerpt && negb (Qle_bool confidence (4 # 10)) then
    print (warning_sign ++ lit " MEDIUM confidence ("
           ++ format_2f env confidence ++ lit ") - Scraped response") ;;
    ret (format_scraped_response (or_else scraped_excerpt []) query lang title)
  else
    print (cross_mark ++ lit " LOW confidence - Using direct alternatives") ;;
    get_direct_alternatives db query lang.

Definition handle_fallback_intent (db : list PageContent) (user_query : json)
  : M str :=
  print (arrows ++ lit " Fallback intent triggered for: "
         ++ fmt_value user_query) ;;
  query <- dyn_search_arg user_query ;;
  let lang := detect_language query in
  let query_lower := lower query in
  if mentions query_lower [lit "hello"; lit "hi"; lit "salam"; lit "hey"] then
    match lang with
    | urdu =>
        ret (lit "Salam! Main aapki kaise madad kar sakti hoon? Aap apne pasand ka product puch sakte hain. " ++ smile_emoji)
    | english =>
        ret (lit "Hello! How can I help you today? Feel free to ask about our products. " ++ smile_emoji)
    end
  else if mentions query_lower
            [lit "thanks"; lit "thank you"; lit "shukriya"; lit "thankyou"] then
    match lang with
    | urdu => ret (lit "Khushi hui madad karke! Kuch aur chahiye? " ++ smile_emoji)
    | english =>
        ret (lit "You're welcome! Anything else I can help with? " ++ smile_emoji)
    end
  else if mentions query_lower [lit "naam"; lit "name"; lit "kaun"; lit "who"] then
    match lang with
    | urdu =>
        ret (lit "Main Silk and Saffron ki assistant hoon. Aap mujhse products ke baare mein puch sakte hain! " ++ dizzy)
    | english =>
        ret (lit "I'm Silk and Saffron's assistant. Ask me about our products! " ++ dizzy)
    end
  else if mentions query_lower [lit "bye"; lit "khuda hafiz"; lit "goodbye"] then
    match lang with
    | urdu => ret (lit "Khuda hafiz! Dobara zaroor aaiyega. " ++ waving_hand)
    | english => ret (lit "Goodbye! Visit us again soon. " ++ waving_hand)
    end
  else get_direct_alternatives db query lang.

(** ** Webhook *)

(** The answer the intent routing computes, before the safety check. *)
Definition route_intent (db : list PageContent) (user_query intent : json)
  : M str :=
  if json_is_str intent (lit "LLMQueryIntent") then
    handle_llm_query_intent db user_query
  else handle_fallback_intent db user_query.

Definition safety_check (user_query : json) (answer : str) : M str :=
  if too_short answer then
    query <- dyn_search_arg user_query ;;
    ret (clarification_prompt (detect_language query))
  else ret answer.

(** The four lines printed once the body is read. *)
Definition log_request (user_query intent : json) : M unit :=
  print ([nl] ++ rule) ;;
  print (memo ++ lit " User Query: " ++ fmt_value user_query) ;;
  print (direct_hit ++ lit " Intent Detected: " ++ fmt_value intent) ;;
  print (rule ++ [nl]).

Definition dialogflow_webhook (db : list PageContent) (req : request)
  : M JsonResponse :=
  if str_eqb (method req) (lit "POST") then
    match body req with
    | inl message =>
        print (cross_mark ++ lit " Invalid JSON: " ++ message) ;;
        ret invalid_request
    | inr body =>
        query <- query_and_intent body ;;
        let '(user_query, intent) := query in
        log_request user_query intent ;;
        answer <- route_intent db user_query intent ;;
        answer <- safety_check user_query answer ;;
        print (outbox ++ lit " Final Response: " ++ answer ++ [nl]) ;;
        ret (fulfillment answer)
    end
  else ret (mkResponse [(lit "error", JStr (lit "Only POST allowed"))] 405).

(** The states the process can be in: a fresh process, then one request
    after another, each returning or raising. *)
Inductive reachable (db : list PageContent) : state -> Prop :=
| reachable_init : forall draws, reachable db (initial_state draws)
| reachable_reseed : forall st draws,
    reachable db st ->
    reachable db (mkState (LAST_SUGGESTED_PRODUCTS st) draws)
| reachable_returned : forall st req resp st',
    reachable db st ->
    dialogflow_webhook db req st = Returned resp st' ->
    reachable db st'
| reachable_raised : forall st req e st',
    reachable db st ->
    dialogflow_webhook db req st = Raised e st' ->
    reachable db st'.

(** A store with every [is_active] flag rewritten by [flag]. *)
Definition with_active (flag : PageContent -> bool) (p : PageContent)
  : PageContent :=
  mkPage (url p) (page p) (title p) (content p) (page_type p) (flag p).

(** A candidate over the page with its flag rewritten. *)
Definition candidate_with_active (flag : PageContent -> bool) (c : candidate)
  : candidate :=
  mkCandidate (with_active flag (c_page c)) (c_score c) (c_excerpt c)
              (c_title c).

(** The opening and closing lines of a price answer. *)
Definition price_header (query_lower : str) : str :=
  if mentions query_lower cheap_keywords then
    match detect_language query_lower with
    | urdu => star_emoji ++ lit " Sabse saste options:" ++ [nl; nl]
    | english => star_emoji ++ lit " Most affordable options:" ++ [nl; nl]
    end
  else star_emoji ++ lit " Premium options:" ++ [nl; nl].

Definition price_footer (query_lower : str) : str :=
  match detect_language query_lower with
  | urdu => [nl] ++ lit "Kaunsa dekhna chahein? " ++ smile_emoji
  | english => [nl] ++ lit "Which one would you like to see? " ++ smile_emoji
  end.

(** Whether every price of a list is finite. *)
Definition all_finite (l : list priced) : bool :=
  forallb (fun p => match p_price p with
                    | Finite _ => true
                    | Infinity => false
                    end) l.

(** ** A sample store

    Three product rows in the layout the scraper writes
    ([Product: ... / Price: Rs.<price> / Status: ... / Description: ...]). *)

Definition product_content (name price description : string) : str :=
  lit "Product: " ++ lit name ++ [nl; nl] ++ lit "Price: Rs." ++ lit price
  ++ [nl; nl] ++ lit "Status: Available" ++ [nl; nl] ++ lit "Description: "
  ++ lit description.

Definition product_row (handle name price description : string) (active : bool)
  : PageContent :=
  mkPage (lit "https://silkandsaffron.store/products/" ++ lit handle) []
         (Some (lit name)) (product_content name price description)
         (lit "product") active.

Definition crimson : PageContent :=
  product_row "crimson" "Crimson Gown" "500.00"
              "A lovely red silk dress for summer evenings" true.
Definition azure : PageContent :=
  product_row "azure" "Azure Kurta" "1200.00"
              "Blue cotton kurta with fine embroidered neckline" true.
Definition meadow : PageContent :=
  product_row "meadow" "Meadow Suit" "300.00"
              "Green lawn suit three piece with dupatta" true.

Definition sample_store : list PageContent := [crimson; azure; meadow].

(** A product row that has been marked inactive. *)
Definition dormant : PageContent :=
  product_row "dormant" "Dormant Shawl" "150.00"
              "Soft black woollen shawl with hand woven border" false.

(** A product row whose price has 310 digits. *)
Definition colossal : PageContent :=
  mkPage (lit "https://silkandsaffron.store/products/colossal") []
         (Some (lit "Colossal Throw"))
         (lit "Product: Colossal Throw" ++ [nl; nl] ++ lit "Price: Rs.1"
          ++ repeat 48%N 309 ++ lit ".00")
         (lit "product") true.

(** A request body with a number where the query text belongs. *)
Definition numeric_query_body : json :=
  JObj [(lit "queryResult",
         JObj [(lit "queryText", JNum (5 # 1)%Q);
               (lit "intent",
                JObj [(lit "displayName", JStr (lit "LLMQueryIntent"))])])].


Definition post (b : json) : request := mkRequest (lit "POST") (inr b).

(** Three lines: a long one, one of special characters, a short one. *)
Definition three_lines : str :=
  lit "Hand embroidered silk kurta" ++ [nl] ++ lit "***" ++ [nl] ++ lit "small".

(** A memory that holds ten urls. *)
Definition full_memory : list str :=
  map (fun n => lit "https://silkandsaffron.store/products/item-"
                ++ str_of_N n)
      [1; 2; 3; 4; 5; 6; 7; 8; 9; 10]%N.

(** * Properties *)

(** ** Strings *)

Lemma str_eqb_eq (a b : str) : str_eqb a b = true <-> a = b.
Proof.
  revert b; induction a as [|x a IH]; intros [|y b]; simpl; split;
    try congruence; try reflexivity.
  - intros H. apply andb_true_iff in H as [H1 H2].
    apply N.eqb_eq in H1. apply IH in H2. congruence.
  - intros H. injection H as -> ->. rewrite N.eqb_refl. simpl. now apply IH.
Qed.

Lemma fields_not_nil (sep : char -> bool) (s : str) : fields sep s <> [].
Proof.
  destruct s as [|c s]; simpl; [discriminate|].
  destruct (sep c); [discriminate|].
  destruct (fields sep s); discriminate.
Qed.

Lemma startswith_nil_r (t : str) : t <> [] -> startswith t [] = false.
Proof. destruct t; [congruence | reflexivity]. Qed.

Lemma str_in_nil_r (t : str) : t <> [] -> str_in t [] = false.
Proof. intros H. simpl. now rewrite startswith_nil_r. Qed.

Section Fields.
Variable sep : char -> bool.

(** A text free of separators starts [s] exactly when it starts the first
    field of [s]. *)
Lemma startswith_first_field (t s : str) :
  forallb (fun c => negb (sep c)) t = true ->
  startswith t s = startswith t (hd [] (fields sep s)).
Proof.
  revert t; induction s as [|c s IH]; intros t Ht.
  - reflexivity.
  - destruct t as [|x t]; [reflexivity|].
    simpl in Ht. apply andb_true_iff in Ht as [Hx Ht].
    simpl. destruct (sep c) eqn:Hc.
    + simpl. destruct (N.eqb_spec x c) as [->|]; [|reflexivity].
      rewrite Hc in Hx. discriminate.
    + specialize (IH t Ht).
      destruct (fields sep s) as [|w ws] eqn:Hf.
      * now apply fields_not_nil in Hf.
      * simpl in *. now rewrite IH.
Qed.

(** A non-empty text free of separators occurs in [s] exactly when it
    occurs in one of the fields of [s]. *)
Lemma str_in_fields (t s : str) :
  t <> [] ->
  forallb (fun c => negb (sep c)) t = true ->
  str_in t s = existsb (str_in t) (fields sep s).
Proof.
  intros Hne Ht. induction s as [|c s IH].
  - simpl. now rewrite !orb_false_r.
  - pose proof (startswith_first_field t (c :: s) Ht) as Hhd.
    cbn [str_in]. rewrite IH, Hhd. cbn [fields].
    destruct (sep c) eqn:Hc.
    + cbn [hd existsb]. rewrite (str_in_nil_r t Hne).
      now rewrite (startswith_nil_r t Hne).
    + destruct (fields sep s) as [|w ws] eqn:Hf.
      * now apply fields_not_nil in Hf.
      * cbn [hd existsb str_in]. now rewrite !orb_assoc.
Qed.
End Fields.

Lemma existsb_filter_nonempty (f : str -> bool) (l : list str) :
  f [] = false ->
  existsb f (filter nonempty l) = existsb f l.
Proof.
  intros Hf. induction l as [|w l IH]; [reflexivity|].
  destruct w as [|c w]; simpl.
  - now rewrite Hf, IH.
  - now rewrite IH.
Qed.

Lemma existsb_swap {A B : Type} (f : A -> B -> bool) (la : list A)
      (lb : list B) :
  existsb (fun a => existsb (f a) lb) la
  = existsb (fun b => existsb (fun a => f a b) la) lb.
Proof.
  induction la as [|a la IH]; simpl.
  - induction lb as [|b lb IHb]; [reflexivity | simpl; now rewrite <- IHb].
  - rewrite IH. clear IH.
    induction lb as [|b lb IHb]; simpl; [reflexivity|].
    rewrite <- IHb.
    destruct (f a b), (existsb (fun a0 => f a0 b) la), (existsb (f a) lb);
      reflexivity.
Qed.

(** A list of tokens without whitespace is mentioned by a text exactly when
    one of the whitespace-separated words of the text holds one of them. *)
Lemma mentions_by_word (tokens : list str) (s : str) :
  forallb separable tokens = true ->
  mentions s tokens
  = existsb (fun w => existsb (fun token => str_in token w) tokens) (split s).
Proof.
  intros Hsep. unfold mentions, split.
  rewrite existsb_filter_nonempty.
  2:{ clear -Hsep. induction tokens as [|t ts IH]; [reflexivity|].
      simpl in Hsep. apply andb_true_iff in Hsep as [Ht Hts].
      cbn [existsb]. rewrite (IH Hts).
      unfold separable in Ht. apply andb_true_iff in Ht as [Ht _].
      destruct t; [discriminate | reflexivity]. }
  rewrite <- (existsb_swap (fun token w => str_in token w)).
  induction tokens as [|t ts IH]; [reflexivity|].
  simpl in Hsep. apply andb_true_iff in Hsep as [Ht Hts].
  cbn [existsb]. rewrite (IH Hts). f_equal.
  unfold separable in Ht. apply andb_true_iff in Ht as [Hne Hws].
  apply str_in_fields; [destruct t; [discriminate | congruence] | exact Hws].
Qed.

(** ** Query classifier *)

Lemma re_search_class (p : char -> bool) (s : str) :
  re_search false (Class p) s = existsb p s.
Proof.
  unfold re_search. induction s as [|c s IH]; [reflexivity|].
  cbn [re_search_group rmatch existsb].
  destruct (p c); [reflexivity | exact IH].
Qed.

(** C6. [detect_language] answers Urdu exactly when the text has a
    character of the Arabic block or one of the whitespace-separated words
    of the text, lower-cased so that case does not count, contains a token
    of the Romanized-Urdu list, and English otherwise, whatever the case
    tables are; "mujhe red dress dikhao" is Urdu and "show me a red dress"
    is English. *)
Theorem detect_language_refines_spec :
  (forall text, detect_language text = detect_language_spec text)
  /\ detect_language (lit "mujhe red dress dikhao") = urdu
  /\ detect_language (lit "show me a red dress") = english.
Proof.
  split; [|split; reflexivity].
  intros text. unfold detect_language, detect_language_spec.
  rewrite re_search_class.
  rewrite (mentions_by_word urdu_words (lower text)) by reflexivity.
  fold word_has_urdu_token.
  destruct (existsb arabic_block text); reflexivity.
Qed.

(** The match is by containment, not word equality: "skirt" holds the token
    "ki". *)
Example detect_language_skirt : detect_language (lit "skirt") = urdu.
Proof. reflexivity. Qed.

(** ** Price keyword routing *)

(** C10. A query with a price keyword is handed to the price path at once,
    and the recent-suggestions memory and the random source are left as they
    were: what the price path returns is returned, and what it raises is
    raised, in the state the matcher was called in. *)
Theorem price_query_leaves_memory (db : list PageContent) (user_query : str)
        (threshold : Q) (st : state) :
  mentions (lower user_query) price_keywords = true ->
  (forall found,
      handle_price_query db (lower user_query) = Value found ->
      search_in_scraped_content db user_query threshold st
      = Returned found st)
  /\ (forall e,
         handle_price_query db (lower user_query) = Error e ->
         search_in_scraped_content db user_query threshold st = Raised e st).
Proof.
  intros H. unfold search_in_scraped_content. rewrite H.
  split; intros r E; unfold call; now rewrite E.
Qed.

(** ** Stable sorting *)

Section Sorting.
Context {A : Type} (before : A -> A -> bool).

Lemma insert_by_perm (x : A) (l : list A) :
  Permutation (x :: l) (insert_by before x l).
Proof.
  induction l as [|y l IH]; simpl; [reflexivity|].
  destruct (before x y); [reflexivity|].
  rewrite perm_swap. now constructor.
Qed.

Lemma sort_by_perm (l : list A) : Permutation l (sort_by before l).
Proof.
  induction l as [|x l IH]; simpl; [constructor|].
  rewrite <- insert_by_perm. now constructor.
Qed.

Lemma sort_by_nil_inv (l : list A) : sort_by before l = [] -> l = [].
Proof.
  intros H. pose proof (sort_by_perm l) as P. rewrite H in P.
  now apply Permutation_sym, Permutation_nil in P.
Qed.

(** An element that nothing earlier may precede, and that may precede
    everything later, comes out first. *)
Lemma sort_by_dominant (c : A) (l1 l2 : list A) :
  (forall x, In x l1 -> before x c = false) ->
  (forall x, In x l2 -> before c x = true) ->
  exists rest, sort_by before (l1 ++ c :: l2) = c :: rest.
Proof.
  intros H1 H2. induction l1 as [|a l1 IH]; simpl.
  - destruct (sort_by before l2) as [|y l] eqn:E; simpl; [now eexists|].
    rewrite H2; [now eexists|].
    apply (Permutation_in y (Permutation_sym (sort_by_perm l2))).
    rewrite E. now left.
  - destruct IH as [rest E]; [intros x Hx; apply H1; now right|].
    rewrite E. simpl. rewrite (H1 a) by now left. now eexists.
Qed.

Hypothesis before_total : forall x y, before x y = false -> before y x = true.
Hypothesis before_trans :
  forall x y z, before x y = true -> before y z = true -> before x z = true.

Lemma insert_by_sorted (x : A) (l : list A) :
  StronglySorted (fun a b => before a b = true) l ->
  StronglySorted (fun a b => before a b = true) (insert_by before x l).
Proof.
  induction 1 as [|y l Hs IH Hy]; simpl.
  - repeat constructor.
  - destruct (before x y) eqn:E.
    + constructor; [now constructor|].
      constructor; [exact E|].
      rewrite Forall_forall in *. intros z Hz.
      exact (before_trans _ _ _ E (Hy z Hz)).
    + constructor; [exact IH|].
      rewrite Forall_forall in *. intros z Hz.
      apply (Permutation_in z (Permutation_sym (insert_by_perm x l))) in Hz.
      destruct Hz as [<-|Hz]; [now apply before_total | now apply Hy].
Qed.

Lemma sort_by_sorted (l : list A) :
  StronglySorted (fun a b => before a b = true) (sort_by before l).
Proof.
  induction l as [|x l IH]; simpl; [constructor | now apply insert_by_sorted].
Qed.
End Sorting.

Lemma sort_by_map {A B : Type} (before : A -> A -> bool)
      (before' : B -> B -> bool) (g : A -> B) (l : list A) :
  (forall x y, before' (g x) (g y) = before x y) ->
  sort_by before' (map g l) = map g (sort_by before l).
Proof.
  intros Hg. induction l as [|x l IH]; [reflexivity|].
  simpl. rewrite IH. clear IH.
  induction (sort_by before l) as [|y s IHs]; [reflexivity|].
  simpl. rewrite Hg. destruct (before x y); [reflexivity|].
  simpl. now rewrite IHs.
Qed.

Lemma Qle_bool_total (a b : Q) : Qle_bool a b = false -> Qle_bool b a = true.
Proof.
  intros H. apply Qle_bool_iff. apply Qlt_le_weak, Qnot_le_lt.
  intros Hle. apply Qle_bool_iff in Hle. congruence.
Qed.

Lemma Qle_bool_trans (a b c : Q) :
  Qle_bool a b = true -> Qle_bool b c = true -> Qle_bool a c = true.
Proof.
  rewrite !Qle_bool_iff. apply Qle_trans.
Qed.

Lemma Qle_bool_false_iff (a b : Q) : Qle_bool a b = false <-> (b < a)%Q.
Proof.
  split.
  - intros H. apply Qnot_le_lt. intros Hle. apply Qle_bool_iff in Hle.
    congruence.
  - intros H. destruct (Qle_bool a b) eqn:E; [|reflexivity].
    apply Qle_bool_iff in E. exfalso. exact (Qlt_not_le _ _ H E).
Qed.

Lemma float_le_total (a b : pyfloat) : float_le a b = false -> float_le b a = true.
Proof.
  destruct a, b; simpl; try congruence. apply Qle_bool_total.
Qed.

Lemma float_le_trans (a b c : pyfloat) :
  float_le a b = true -> float_le b c = true -> float_le a c = true.
Proof.
  destruct a, b, c; simpl; try congruence. apply Qle_bool_trans.
Qed.

Lemma StronglySorted_impl {A : Type} (R R' : A -> A -> Prop) (l : list A) :
  (forall a b, R a b -> R' a b) ->
  StronglySorted R l -> StronglySorted R' l.
Proof.
  intros HR. induction 1 as [|a s Hs IH Ha]; constructor; [exact IH|].
  eapply Forall_impl; [|exact Ha]. intros b. apply HR.
Qed.

Lemma sorted_by_score (l : list candidate) :
  StronglySorted (fun x y => (c_score y <= c_score x)%Q)
                 (sort_by by_score_descending l).
Proof.
  apply StronglySorted_impl
    with (R := fun a b => by_score_descending a b = true).
  - intros a b Hb. unfold by_score_descending in Hb.
    now apply Qle_bool_iff in Hb.
  - apply sort_by_sorted; unfold by_score_descending.
    + intros x y. apply Qle_bool_total.
    + intros x y z Hxy Hyz. exact (Qle_bool_trans _ _ _ Hyz Hxy).
Qed.

(** ** Matcher *)

Lemma in_all_matches (db : list PageContent) (q : str) (threshold : Q)
      (suggested : list str) (c : candidate) :
  In c (all_matches db q threshold suggested) <->
  In (c_page c) db
  /\ c = mkCandidate (c_page c) (fst (score_page q (c_page c)))
                     (snd (score_page q (c_page c)))
                     (or_else (title (c_page c)) (lit "Product"))
  /\ Qle_bool threshold (c_score c) = true
  /\ nonempty (c_excerpt c) = true
  /\ list_in (url (c_page c)) suggested = false.
Proof.
  unfold all_matches, objects_all. rewrite in_flat_map. split.
  - intros (p & Hp & Hc). destruct (score_page q p) as [s e] eqn:E.
    destruct (Qle_bool threshold s) eqn:E1; [|contradiction].
    destruct (nonempty e) eqn:E2; [|contradiction].
    destruct (list_in (url p) suggested) eqn:E3; [contradiction|].
    destruct Hc as [<-|[]]. simpl. rewrite E. simpl. auto.
  - destruct c as [p s e t]. cbn [c_page c_score c_excerpt].
    intros (Hp & Hc & H1 & H2 & H3). exists p. split; [exact Hp|].
    injection Hc as Hs He Ht.
    destruct (score_page q p) as [s' e']. cbn [fst snd] in Hs, He.
    subst s' e'. rewrite H1, H2, H3. left. now rewrite <- Ht.
Qed.

Lemma all_matches_app (db1 db2 : list PageContent) (q : str) (threshold : Q)
      (suggested : list str) :
  all_matches (db1 ++ db2) q threshold suggested
  = all_matches db1 q threshold suggested
    ++ all_matches db2 q threshold suggested.
Proof. unfold all_matches, objects_all. apply flat_map_app. Qed.

Lemma last_recorded (suggested : list str) (u : str) :
  last (recorded suggested u) [] = u.
Proof.
  unfold recorded. destruct (10 <? length (suggested ++ [u])) eqn:E.
  - destruct suggested as [|x l]; [discriminate|].
    simpl. apply last_last.
  - apply last_last.
Qed.

Lemma length_recorded (suggested : list str) (u : str) :
  length suggested <= 10 -> length (recorded suggested u) <= 10.
Proof.
  intros H. unfold recorded.
  destruct (10 <? length (suggested ++ [u])) eqn:E.
  - destruct suggested as [|x l]; [discriminate|].
    simpl in *. rewrite length_app in *. simpl in *. lia.
  - now apply Nat.ltb_ge in E.
Qed.

(** The general path of the matcher in closed form. *)
Lemma search_general (db : list PageContent) (user_query : str)
      (threshold : Q) (st : state) :
  mentions (lower user_query) price_keywords = false ->
  search_in_scraped_content db user_query threshold st =
  match sort_by by_score_descending
          (all_matches db (lower user_query) threshold
                       (LAST_SUGGESTED_PRODUCTS st)) with
  | [] => Returned (None, 0%Q, None) st
  | best :: rest =>
      let top := firstn 3 (best :: rest) in
      let high := negb (Qle_bool (c_score best) (7 # 10)) in
      let selected :=
        if high then best
        else nth (hd 0 (random_source st) mod length top) top best in
      Returned (Some (c_excerpt selected), c_score selected,
                Some (c_title selected))
               (mkState (recorded (LAST_SUGGESTED_PRODUCTS st)
                                  (url (c_page selected)))
                        (if high then random_source st
                         else tl (random_source st)))
  end.
Proof.
  intros H. unfold search_in_scraped_content. rewrite H.
  unfold bind at 1. unfold get_suggested at 1.
  destruct (sort_by by_score_descending _) as [|best rest];
    [reflexivity|].
  destruct st as [suggested draws]. cbv zeta.
  destruct (negb (Qle_bool (c_score best) (7 # 10)));
    cbv beta iota delta
      [bind ret random_choice randbelow suggested_append get_suggested
       set_suggested suggested_pop0 recorded LAST_SUGGESTED_PRODUCTS
       random_source];
    match goal with
    | |- context [10 <? length ?l] => destruct (10 <? length l)
    end; reflexivity.
Qed.

(** The first tier of the scoring step: the test the loop makes is that
    the lower-cased query occurs in the lower-cased cleaned content. *)
Lemma score_page_exact_phrase (p : PageContent) (user_query_lower : str) :
  str_in user_query_lower (lower (clean_content_of p)) = true ->
  score_page user_query_lower p = ((9 # 10)%Q, clean_content_of p).
Proof. intros Hin. unfold score_page. cbv zeta. now rewrite Hin. Qed.

(** Where lower-casing leaves a lower-cased text as it is wherever it
    stands, as [str.lower] does, a lower-cased query found in the cleaned
    content itself is found in its lower-cased form as well. *)
Lemma score_page_phrase_in_content (p : PageContent) (user_query : str) :
  (forall t s, str_in (lower t) s = true ->
               str_in (lower t) (lower s) = true) ->
  str_in (lower user_query) (clean_content_of p) = true ->
  score_page (lower user_query) p = ((9 # 10)%Q, clean_content_of p).
Proof. intros Hlaw Hin. apply score_page_exact_phrase, Hlaw, Hin. Qed.

(** C1 (amended). When the lower-cased query occurs in the lower-cased
    cleaned content of a page, the scoring step gives the page 0.9 and its
    cleaned content as the excerpt; if moreover the query has no price
    keyword, that content is not empty, the page is not in the exclude set,
    no other page scores above 0.7 and the threshold is at most 0.9, the
    matcher returns the cleaned content of that page with score 0.9 and
    records its url. *)
Theorem exact_phrase_match (pre post : list PageContent) (p : PageContent)
        (user_query : str) (threshold : Q) (st : state) :
  str_in (lower user_query) (lower (clean_content_of p)) = true ->
  score_page (lower user_query) p = ((9 # 10)%Q, clean_content_of p)
  /\ (mentions (lower user_query) price_keywords = false ->
      nonempty (clean_content_of p) = true ->
      list_in (url p) (LAST_SUGGESTED_PRODUCTS st) = false ->
      (forall p', In p' (pre ++ post) ->
                  (fst (score_page (lower user_query) p') <= 7 # 10)%Q) ->
      (threshold <= 9 # 10)%Q ->
      search_in_scraped_content (pre ++ p :: post) user_query threshold st
      = Returned (Some (clean_content_of p), (9 # 10)%Q,
                  Some (or_else (title p) (lit "Product")))
                 (mkState (recorded (LAST_SUGGESTED_PRODUCTS st) (url p))
                          (random_source st))).
Proof.
  intros Hin.
  pose proof (score_page_exact_phrase p (lower user_query) Hin) as Hscore.
  split; [exact Hscore|].
  intros Hprice Hne Hex Hothers Hth.
  rewrite (search_general _ _ _ _ Hprice).
  set (q := lower user_query) in *.
  set (sug := LAST_SUGGESTED_PRODUCTS st) in *.
  set (c := mkCandidate p (9 # 10)%Q (clean_content_of p)
                        (or_else (title p) (lit "Product"))).
  assert (Hsplit : all_matches (pre ++ p :: post) q threshold sug
                   = all_matches pre q threshold sug
                     ++ c :: all_matches post q threshold sug).
  { rewrite all_matches_app. f_equal.
    change (p :: post) with ([p] ++ post). rewrite all_matches_app.
    unfold all_matches at 1. cbn [objects_all flat_map].
    rewrite Hscore, Hne, Hex.
    apply Qle_bool_iff in Hth. rewrite Hth. reflexivity. }
  assert (Hlow : forall x db',
             (forall p', In p' db' -> In p' (pre ++ post)) ->
             In x (all_matches db' q threshold sug) ->
             (c_score x <= 7 # 10)%Q).
  { intros x db' Hsub Hx. apply in_all_matches in Hx as (Hp & Hc & _).
    rewrite Hc. cbn [c_score]. apply Hothers, Hsub, Hp. }
  destruct (sort_by_dominant by_score_descending c
              (all_matches pre q threshold sug)
              (all_matches post q threshold sug)) as [rest Hsort].
  - intros x Hx. unfold by_score_descending. cbn [c_score].
    apply Qle_bool_false_iff.
    apply Qle_lt_trans with (7 # 10)%Q; [|reflexivity].
    apply (Hlow x pre); [|exact Hx].
    intros p' Hp'. apply in_or_app. now left.
  - intros x Hx. unfold by_score_descending. cbn [c_score].
    apply Qle_bool_iff.
    apply Qle_trans with (7 # 10)%Q; [|discriminate].
    apply (Hlow x post); [|exact Hx].
    intros p' Hp'. apply in_or_app. now right.
  - rewrite Hsplit, Hsort. reflexivity.
Qed.

(** C2. Whenever the matcher has candidates, they are ranked by descending
    score; a best score above 0.7 returns the first of the ranking, and
    otherwise the next draw of the random source, reduced modulo the number
    of the (at most three) top candidates, picks one of them; in both cases
    the result is the selected candidate's excerpt, score and title, and its
    url is recorded at the end of the recent-suggestions memory. *)
Theorem selection_policy (db : list PageContent) (user_query : str)
        (threshold : Q) (st : state) :
  mentions (lower user_query) price_keywords = false ->
  all_matches db (lower user_query) threshold (LAST_SUGGESTED_PRODUCTS st)
  <> [] ->
  exists best rest selected st',
    let candidates :=
      all_matches db (lower user_query) threshold
                  (LAST_SUGGESTED_PRODUCTS st) in
    let top := firstn 3 (best :: rest) in
    Permutation candidates (best :: rest)
    /\ StronglySorted (fun x y => (c_score y <= c_score x)%Q) (best :: rest)
    /\ (forall c, In c candidates -> (c_score c <= c_score best)%Q)
    /\ ((7 # 10 < c_score best)%Q ->
        selected = best /\ random_source st' = random_source st)
    /\ ((c_score best <= 7 # 10)%Q ->
        selected = nth (hd 0 (random_source st) mod length top) top best
        /\ random_source st' = tl (random_source st))
    /\ In selected top
    /\ search_in_scraped_content db user_query threshold st
       = Returned (Some (c_excerpt selected), c_score selected,
                   Some (c_title selected)) st'
    /\ LAST_SUGGESTED_PRODUCTS st'
       = recorded (LAST_SUGGESTED_PRODUCTS st) (url (c_page selected))
    /\ last (LAST_SUGGESTED_PRODUCTS st') [] = url (c_page selected).
Proof.
  intros Hprice Hne.
  pose proof (search_general db user_query threshold st Hprice) as Hs.
  pose proof (sort_by_perm by_score_descending
                (all_matches db (lower user_query) threshold
                             (LAST_SUGGESTED_PRODUCTS st))) as Hperm.
  pose proof (sorted_by_score
                (all_matches db (lower user_query) threshold
                             (LAST_SUGGESTED_PRODUCTS st))) as Hsorted.
  destruct (sort_by by_score_descending _) as [|best rest] eqn:E.
  { now apply sort_by_nil_inv in E. }
  cbv zeta in Hs.
  set (top := firstn 3 (best :: rest)) in *.
  assert (Htop : 0 < length top) by (cbn; lia).
  assert (Hbest : In best top) by now left.
  set (selected := if negb (Qle_bool (c_score best) (7 # 10)) then best
                   else nth (hd 0 (random_source st) mod length top) top best)
    in *.
  exists best, rest, selected.
  eexists. cbv zeta.
  split; [exact Hperm|]. split; [exact Hsorted|].
  split.
  { intros c Hc. apply (Permutation_in c Hperm) in Hc.
    destruct Hc as [<-|Hc]; [apply Qle_refl|].
    inversion Hsorted as [|? ? _ Hall]; subst.
    rewrite Forall_forall in Hall. now apply Hall. }
  split; [|split; [|split; [|split; [exact Hs|]]]].
  - intros Hlt. apply Qle_bool_false_iff in Hlt.
    subst selected. rewrite Hlt. split; reflexivity.
  - intros Hle. apply Qle_bool_iff in Hle.
    subst selected. rewrite Hle. split; reflexivity.
  - subst selected. destruct (negb (Qle_bool (c_score best) (7 # 10)));
      [exact Hbest|].
    apply nth_In. apply Nat.mod_upper_bound. now apply Nat.neq_0_lt_0.
  - split; [reflexivity | apply last_recorded].
Qed.

(** ** Recent-suggestions memory *)

Section KeepsBound.
Context {A B : Type}.

Lemma keeps_ret (a : A) : keeps_bound (ret a).
Proof. intros st H. exact H. Qed.

Lemma keeps_raise (e : exn) : keeps_bound (@raise A e).
Proof. intros st H. exact H. Qed.

Lemma keeps_call (r : result A) : keeps_bound (call r).
Proof. intros st H. unfold call. destruct r; exact H. Qed.

Lemma keeps_bind (m : M A) (f : A -> M B) :
  keeps_bound m -> (forall a, keeps_bound (f a)) -> keeps_bound (bind m f).
Proof.
  intros Hm Hf st H. unfold bind. specialize (Hm st H).
  destruct (m st) as [a st'|e st']; [now apply Hf | exact Hm].
Qed.
End KeepsBound.

Lemma keeps_print (text : str) : keeps_bound (print text).
Proof. intros st H. unfold print. destruct (printable text); exact H. Qed.

Lemma keeps_get_suggested : keeps_bound get_suggested.
Proof. intros st H. exact H. Qed.

Lemma keeps_suggested_clear : keeps_bound suggested_clear.
Proof. intros st H. unfold bounded. cbn. lia. Qed.

Lemma keeps_randbelow (n : nat) : keeps_bound (randbelow n).
Proof. intros st H. exact H. Qed.

Lemma keeps_random_sample {A : Type} (k : nat) (population : list A) :
  keeps_bound (random_sample population k).
Proof.
  revert population; induction k as [|k IH]; intros population.
  - apply keeps_ret.
  - destruct population as [|d l]; [apply keeps_ret|].
    cbn [random_sample]. apply keeps_bind; [apply keeps_randbelow|].
    intros i. apply keeps_bind; [apply IH|]. intros rest. apply keeps_ret.
Qed.

Lemma keeps_search (db : list PageContent) (q : str) (threshold : Q) :
  keeps_bound (search_in_scraped_content db q threshold).
Proof.
  intros st H.
  destruct (mentions (lower q) price_keywords) eqn:Hp.
  - unfold search_in_scraped_content. rewrite Hp. now apply keeps_call.
  - rewrite (search_general _ _ _ _ Hp).
    destruct (sort_by by_score_descending _); [exact H|].
    cbv zeta. unfold bounded. cbn [LAST_SUGGESTED_PRODUCTS].
    now apply length_recorded.
Qed.

Lemma keeps_get_diverse (db : list PageContent) (limit : nat) :
  keeps_bound (get_diverse_product_samples db limit).
Proof.
  unfold get_diverse_product_samples.
  apply keeps_bind; [apply keeps_get_suggested|]. intros suggested.
  apply keeps_bind.
  - destruct (filter _ _).
    + apply keeps_bind; [apply keeps_suggested_clear|].
      intros _. apply keeps_ret.
    + apply keeps_ret.
  - intros available. destruct (limit <? length available).
    + apply keeps_random_sample.
    + apply keeps_ret.
Qed.

Lemma keeps_get_direct_alternatives (db : list PageContent) (q : str)
      (lang : language) :
  keeps_bound (get_direct_alternatives db q lang).
Proof.
  unfold get_direct_alternatives.
  apply keeps_bind; [apply keeps_get_diverse|].
  intros [|p l]; destruct lang; apply keeps_ret.
Qed.

Lemma keeps_handle_llm_query_intent (db : list PageContent) (v : json) :
  keeps_bound (handle_llm_query_intent db v).
Proof.
  unfold handle_llm_query_intent.
  apply keeps_bind; [apply keeps_print|]. intros _. apply keeps_bind.
  - destruct v; first [apply keeps_ret | apply keeps_raise].
  - intros q. apply keeps_bind; [apply keeps_search|].
    intros [[excerpt confidence] t].
    repeat match goal with
           | |- keeps_bound (if ?b then _ else _) => destruct b
           end;
      (apply keeps_bind; [apply keeps_print|]); intros _;
      first [apply keeps_ret | apply keeps_get_direct_alternatives].
Qed.

Lemma keeps_handle_fallback_intent (db : list PageContent) (v : json) :
  keeps_bound (handle_fallback_intent db v).
Proof.
  unfold handle_fallback_intent.
  apply keeps_bind; [apply keeps_print|]. intros _. apply keeps_bind.
  - destruct v; first [apply keeps_ret | apply keeps_raise].
  - intros q. cbv zeta.
    repeat match goal with
           | |- keeps_bound (if ?b then _ else _) => destruct b
           | |- keeps_bound (match ?l with urdu => _ | english => _ end) =>
               destruct l
           end;
      first [apply keeps_ret | apply keeps_get_direct_alternatives].
Qed.

Lemma keeps_dict_get (d : json) (key : str) (default : json) :
  keeps_bound (dict_get d key default).
Proof.
  unfold dict_get. destruct d; try apply keeps_raise.
  destruct (assoc key members); apply keeps_ret.
Qed.

Lemma keeps_dialogflow_webhook (db : list PageContent) (req : request) :
  keeps_bound (dialogflow_webhook db req).
Proof.
  unfold dialogflow_webhook.
  destruct (str_eqb (method req) (lit "POST")); [|apply keeps_ret].
  destruct (body req) as [message|b].
  { apply keeps_bind; [apply keeps_print | intros _; apply keeps_ret]. }
  apply keeps_bind.
  - unfold query_and_intent.
    repeat (apply keeps_bind; [apply keeps_dict_get | intros ?]).
    apply keeps_ret.
  - intros [user_query intent]. apply keeps_bind.
    { unfold log_request.
      repeat (apply keeps_bind; [apply keeps_print | intros _]).
      apply keeps_print. }
    intros _. apply keeps_bind.
    + unfold route_intent. destruct (json_is_str intent _);
        [apply keeps_handle_llm_query_intent
        | apply keeps_handle_fallback_intent].
    + intros answer. apply keeps_bind.
      * unfold safety_check. destruct (too_short answer); [|apply keeps_ret].
        apply keeps_bind; [|intros; apply keeps_ret].
        destruct user_query; first [apply keeps_ret | apply keeps_raise].
      * intros answer'.
        apply keeps_bind; [apply keeps_print | intros _; apply keeps_ret].
Qed.

(** C4. The recent-suggestions memory holds at most ten urls after every
    operation on it and in every state the process reaches; a url recorded
    while it holds ten goes to the end and the oldest entry, at the front,
    is the one dropped. *)
Theorem recent_suggestions_bounded_fifo :
  (forall db q threshold,
      keeps_bound (search_in_scraped_content db q threshold))
  /\ (forall db limit, keeps_bound (get_diverse_product_samples db limit))
  /\ (forall db st, reachable db st -> bounded st)
  /\ (forall db q threshold st excerpt score title st',
        mentions (lower q) price_keywords = false ->
        search_in_scraped_content db q threshold st
        = Returned (Some excerpt, score, title) st' ->
        exists u,
          LAST_SUGGESTED_PRODUCTS st'
          = recorded (LAST_SUGGESTED_PRODUCTS st) u
          /\ (length (LAST_SUGGESTED_PRODUCTS st) < 10 ->
              LAST_SUGGESTED_PRODUCTS st'
              = LAST_SUGGESTED_PRODUCTS st ++ [u])
          /\ (length (LAST_SUGGESTED_PRODUCTS st) = 10 ->
              LAST_SUGGESTED_PRODUCTS st'
              = tl (LAST_SUGGESTED_PRODUCTS st) ++ [u])).
Proof.
  split; [exact keeps_search|]. split; [exact keeps_get_diverse|]. split.
  - intros db st H. induction H as [draws|st draws _ IH|st req resp st' _ IH E
                                    |st req e st' _ IH E].
    + unfold bounded. cbn. lia.
    + exact IH.
    + pose proof (keeps_dialogflow_webhook db req st IH) as K.
      now rewrite E in K.
    + pose proof (keeps_dialogflow_webhook db req st IH) as K.
      now rewrite E in K.
  - intros db q threshold st excerpt score t st' Hp E.
    rewrite (search_general _ _ _ _ Hp) in E.
    destruct (sort_by by_score_descending _) as [|best rest];
      [discriminate|].
    cbv zeta in E. injection E as _ _ _ <-.
    eexists. split; [reflexivity|].
    cbn [LAST_SUGGESTED_PRODUCTS]. unfold recorded.
    rewrite length_app. cbn [length].
    split; intros Hlen.
    + destruct (Nat.ltb_spec 10 (length (LAST_SUGGESTED_PRODUCTS st) + 1));
        [lia | reflexivity].
    + destruct (Nat.ltb_spec 10 (length (LAST_SUGGESTED_PRODUCTS st) + 1));
        [|lia].
      destruct (LAST_SUGGESTED_PRODUCTS st); [discriminate | reflexivity].
Qed.

(** ** The active flag *)

Lemma score_page_with_active (flag : PageContent -> bool) (q : str)
      (p : PageContent) :
  score_page q (with_active flag p) = score_page q p.
Proof. reflexivity. Qed.

Lemma all_matches_with_active (flag : PageContent -> bool)
      (db : list PageContent) (q : str) (threshold : Q) (suggested : list str) :
  all_matches (map (with_active flag) db) q threshold suggested
  = map (candidate_with_active flag) (all_matches db q threshold suggested).
Proof.
  unfold all_matches, objects_all.
  induction db as [|p db IH]; [reflexivity|].
  cbn [map flat_map]. rewrite IH, map_app. f_equal.
  rewrite score_page_with_active.
  destruct (score_page q p) as [s e].
  change (url (with_active flag p)) with (url p).
  change (title (with_active flag p)) with (title p).
  destruct (Qle_bool threshold s && nonempty e
            && negb (list_in (url p) suggested)); reflexivity.
Qed.

Lemma filter_page_type_with_active (flag : PageContent -> bool) (t : str)
      (db : list PageContent) :
  objects_filter_page_type t (map (with_active flag) db)
  = map (with_active flag) (objects_filter_page_type t db).
Proof.
  unfold objects_filter_page_type.
  induction db as [|p db IH]; [reflexivity|].
  cbn [map filter]. change (page_type (with_active flag p)) with (page_type p).
  destruct (str_eqb (page_type p) t); cbn [map]; now rewrite IH.
Qed.

Lemma products_with_price_with_active (flag : PageContent -> bool)
      (l : list PageContent) :
  products_with_price (map (with_active flag) l) = products_with_price l.
Proof.
  unfold products_with_price.
  induction l as [|p l IH]; [reflexivity|].
  cbn [map flat_map]. now rewrite IH.
Qed.

Lemma handle_price_query_with_active (flag : PageContent -> bool)
      (db : list PageContent) (q : str) :
  handle_price_query (map (with_active flag) db) q = handle_price_query db q.
Proof.
  unfold handle_price_query.
  now rewrite filter_page_type_with_active, products_with_price_with_active.
Qed.

(** C3 (amended). Neither the general matcher nor the price path reads the
    active flag: the matcher scans every row of the store and the price
    path every product row, and their results are the same whatever the
    flags are set to. *)
Theorem active_flag_is_not_read (flag : PageContent -> bool)
        (db : list PageContent) (user_query : str) (threshold : Q)
        (st : state) :
  search_in_scraped_content (map (with_active flag) db) user_query threshold st
  = search_in_scraped_content db user_query threshold st
  /\ handle_price_query (map (with_active flag) db) user_query
     = handle_price_query db user_query
  /\ all_matches (map (with_active flag) db) user_query threshold
                 (LAST_SUGGESTED_PRODUCTS st)
     = map (candidate_with_active flag)
           (all_matches db user_query threshold (LAST_SUGGESTED_PRODUCTS st)).
Proof.
  split; [|split;
           [apply handle_price_query_with_active
           | apply all_matches_with_active]].
  destruct (mentions (lower user_query) price_keywords) eqn:Hp.
  - unfold search_in_scraped_content. rewrite Hp.
    now rewrite handle_price_query_with_active.
  - rewrite !(search_general _ _ _ _ Hp), all_matches_with_active.
    rewrite (sort_by_map by_score_descending by_score_descending)
      by reflexivity.
    destruct (sort_by by_score_descending _) as [|best rest];
      [reflexivity|].
    cbv zeta. cbn [map].
    change (c_score (candidate_with_active flag best)) with (c_score best).
    destruct (negb (Qle_bool (c_score best) (7 # 10))); [reflexivity|].
    change (candidate_with_active flag best
            :: map (candidate_with_active flag) rest)
      with (map (candidate_with_active flag) (best :: rest)).
    rewrite firstn_map, length_map, map_nth. reflexivity.
Qed.

(** ** Price path *)

Lemma sorted_by_price_ascending (l : list priced) :
  StronglySorted (fun x y => float_le (p_price x) (p_price y) = true)
                 (sort_by by_price_ascending l).
Proof.
  apply (sort_by_sorted by_price_ascending); unfold by_price_ascending.
  - intros x y. apply float_le_total.
  - intros x y z. apply float_le_trans.
Qed.

Lemma sorted_by_price_descending (l : list priced) :
  StronglySorted (fun x y => float_le (p_price y) (p_price x) = true)
                 (sort_by by_price_descending l).
Proof.
  apply (sort_by_sorted by_price_descending); unfold by_price_descending.
  - intros x y. apply float_le_total.
  - intros x y z Hxy Hyz. exact (float_le_trans _ _ _ Hyz Hxy).
Qed.

(** The loop over the selected products completes when every price is
    finite, and raises at the first infinite one. *)
Lemma price_lines_finite (l : list priced) (i : nat) :
  all_finite l = true -> exists lines, price_lines i l = Value lines.
Proof.
  revert i; induction l as [|p l IH]; intros i H; [now eexists|].
  cbn [all_finite forallb] in H. apply andb_true_iff in H as [Hp Hl].
  cbn [price_lines]. destruct (p_price p); [|discriminate].
  cbn [int_of_float]. destruct (IH (S i) Hl) as [lines ->]. now eexists.
Qed.

Lemma price_lines_infinite (l : list priced) (i : nat) :
  all_finite l = false -> price_lines i l = Error OverflowError.
Proof.
  revert i; induction l as [|p l IH]; intros i H; [discriminate|].
  cbn [all_finite forallb] in H. cbn [price_lines].
  destruct (p_price p); [|reflexivity].
  cbn [int_of_float]. cbn [andb] in H. now rewrite (IH (S i) H).
Qed.

Lemma handle_price_query_layout (db : list PageContent) (query_lower : str) :
  products_with_price (objects_filter_page_type (lit "product") db) <> [] ->
  handle_price_query db query_lower
  = match price_lines 1
            (selected_products query_lower
               (products_with_price
                  (objects_filter_page_type (lit "product") db))) with
    | Value lines =>
        Value (Some (price_header query_lower ++ lines
                     ++ price_footer query_lower),
               (95 # 100)%Q, Some (lit "Price Comparison"))
    | Error e => Error e
    end.
Proof.
  intros Hne. unfold handle_price_query, price_header, price_footer.
  destruct (products_with_price _) as [|x l]; [congruence|].
  cbv zeta. destruct (price_lines 1 _); [|reflexivity].
  destruct (mentions query_lower cheap_keywords),
    (detect_language query_lower);
    now rewrite <- !app_assoc.
Qed.

(** C5 (amended). With no priced product the price path answers
    (None, 0, None).  Otherwise the priced products are ranked by their
    prices as doubles, ascending when the query holds a cheap-intent keyword
    and descending when it holds none (as with an expensive-intent keyword
    alone), and the first three of the ranking are listed with score 0.95;
    but when one of the three has a price that parsed to infinity the path
    raises [OverflowError].  Products priced 500, 1200, 300 are listed 300,
    500, 1200 for "cheap" and 1200, 500, 300 for "expensive". *)
Theorem price_path_ranking :
  (forall db query_lower,
      products_with_price (objects_filter_page_type (lit "product") db) = [] ->
      handle_price_query db query_lower = Value (None, 0%Q, None))
  /\ (forall db query_lower,
      let with_price :=
        products_with_price (objects_filter_page_type (lit "product") db) in
      with_price <> [] ->
      exists ranked,
        let listed := firstn 3 ranked in
        Permutation with_price ranked
        /\ (mentions query_lower cheap_keywords = true ->
            StronglySorted
              (fun x y => float_le (p_price x) (p_price y) = true) ranked)
        /\ (mentions query_lower cheap_keywords = false ->
            StronglySorted
              (fun x y => float_le (p_price y) (p_price x) = true) ranked)
        /\ length listed <= 3
        /\ (all_finite listed = true ->
            exists lines,
              price_lines 1 listed = Value lines
              /\ handle_price_query db query_lower
                 = Value (Some (price_header query_lower ++ lines
                                ++ price_footer query_lower),
                          (95 # 100)%Q, Some (lit "Price Comparison")))
        /\ (all_finite listed = false ->
            handle_price_query db query_lower = Error OverflowError))
  /\ handle_price_query sample_store (lit "cheap")
     = Value (Some (price_header (lit "cheap")
                    ++ lit "1. Meadow Suit - Rs.300" ++ [nl]
                    ++ lit "2. Crimson Gown - Rs.500" ++ [nl]
                    ++ lit "3. Azure Kurta - Rs.1200" ++ [nl]
                    ++ price_footer (lit "cheap")),
              (95 # 100)%Q, Some (lit "Price Comparison"))
  /\ handle_price_query sample_store (lit "expensive")
     = Value (Some (price_header (lit "expensive")
                    ++ lit "1. Azure Kurta - Rs.1200" ++ [nl]
                    ++ lit "2. Crimson Gown - Rs.500" ++ [nl]
                    ++ lit "3. Meadow Suit - Rs.300" ++ [nl]
                    ++ price_footer (lit "expensive")),
              (95 # 100)%Q, Some (lit "Price Comparison")).
Proof.
  split; [|split; [|split; vm_compute; reflexivity]].
  { intros db query_lower H. unfold handle_price_query. now rewrite H. }
  intros db query_lower with_price Hne.
  pose proof (handle_price_query_layout db query_lower Hne) as L.
  fold with_price in L. unfold selected_products in L.
  assert (G : forall ranked,
             price_lines 1 (firstn 3 ranked)
             = price_lines 1 (if mentions query_lower cheap_keywords
                              then firstn 3 (sort_by by_price_ascending
                                                     with_price)
                              else firstn 3 (sort_by by_price_descending
                                                     with_price)) ->
             (all_finite (firstn 3 ranked) = true ->
              exists lines,
                price_lines 1 (firstn 3 ranked) = Value lines
                /\ handle_price_query db query_lower
                   = Value (Some (price_header query_lower ++ lines
                                  ++ price_footer query_lower),
                            (95 # 100)%Q, Some (lit "Price Comparison")))
             /\ (all_finite (firstn 3 ranked) = false ->
                 handle_price_query db query_lower = Error OverflowError)).
  { intros ranked E. rewrite <- E in L. split; intros F.
    - destruct (price_lines_finite _ 1 F) as [lines El].
      exists lines. split; [exact El|]. now rewrite L, El.
    - now rewrite L, (price_lines_infinite _ 1 F). }
  destruct (mentions query_lower cheap_keywords) eqn:Hc.
  - exists (sort_by by_price_ascending with_price). cbv zeta.
    split; [apply sort_by_perm|].
    split; [intros _; apply sorted_by_price_ascending|].
    split; [discriminate|].
    split; [apply firstn_le_length | now apply G].
  - exists (sort_by by_price_descending with_price). cbv zeta.
    split; [apply sort_by_perm|].
    split; [discriminate|].
    split; [intros _; apply sorted_by_price_descending|].
    split; [apply firstn_le_length | now apply G].
Qed.

(** ** Whitespace and lines in the text normalizer *)

Lemma lstrip_suffix (s : str) : exists a, s = a ++ lstrip s /\ forallb isspace a = true.
Proof.
  induction s as [|c s (a & E & Ha)]; [now exists []|].
  simpl. destruct (isspace c) eqn:Hc.
  - exists (c :: a). simpl. rewrite Hc, Ha. split; [now f_equal | reflexivity].
  - now exists [].
Qed.

Lemma lstrip_length (s : str) : length (lstrip s) <= length s.
Proof.
  destruct (lstrip_suffix s) as (a & E & _).
  rewrite E at 2. rewrite length_app. lia.
Qed.

Lemma lstrip_head (s : str) :
  match lstrip s with c :: _ => isspace c = false | [] => True end.
Proof.
  induction s as [|c s IH]; [exact I|].
  simpl. destruct (isspace c) eqn:Hc; [exact IH | exact Hc].
Qed.

Lemma skipn_lstrip (s : str) :
  skipn (length s - length (lstrip s)) s = lstrip s.
Proof.
  destruct (lstrip_suffix s) as (a & E & _).
  rewrite E at 1 3. rewrite length_app.
  replace (length a + length (lstrip s) - length (lstrip s)) with (length a + 0) by lia.
  rewrite skipn_app, Nat.add_0_r, skipn_all.
  replace (length a - length a) with 0 by lia. reflexivity.
Qed.

Lemma rmatch_star_isspace {A : Type} (k : str -> option A) (s : str) :
  (forall r, k r <> None) ->
  rmatch false (Star (Class isspace)) s k = k (lstrip s).
Proof.
  intros Hk. cbn [rmatch].
  match goal with
  | |- ?loop (length s) s = _ =>
      assert (G : forall fuel s', length s' <= fuel ->
                                  loop fuel s' = k (lstrip s'))
  end.
  { induction fuel as [|fuel IH]; intros s' Hlen.
    - destruct s'; [reflexivity | simpl in Hlen; lia].
    - destruct s' as [|x s2]; [reflexivity|].
      cbn [lstrip]. destruct (isspace x).
      + replace (length s2 <? length (x :: s2)) with true
          by (symmetry; apply Nat.ltb_lt; simpl; lia).
        simpl in Hlen. rewrite IH by lia.
        destruct (k (lstrip s2)) eqn:E; [reflexivity|].
        now apply Hk in E.
      + reflexivity. }
  now apply G.
Qed.

Lemma rmatch_seq {A : Type} (ic : bool) (r1 r2 : regex) (s : str)
      (k : str -> option A) :
  rmatch ic (Seq r1 r2) s k = rmatch ic r1 s (fun s1 => rmatch ic r2 s1 k).
Proof. reflexivity. Qed.

Lemma rmatch_class {A : Type} (ic : bool) (p : char -> bool) (s : str)
      (k : str -> option A) :
  rmatch ic (Class p) s k
  = match s with
    | x :: s' => if p x then k s' else None
    | [] => None
    end.
Proof. reflexivity. Qed.

Lemma match_len_whitespace (s : str) :
  match_len false (Plus (Class isspace)) s
  = match s with
    | c :: s' =>
        if isspace c then Some (S (length s' - length (lstrip s'))) else None
    | [] => None
    end.
Proof.
  unfold match_len, Plus. rewrite rmatch_seq, rmatch_class.
  destruct s as [|c s']; [reflexivity|].
  destruct (isspace c); [|reflexivity].
  rewrite rmatch_star_isspace by discriminate.
  f_equal. pose proof (lstrip_length s'). cbn [length]. lia.
Qed.

Lemma re_sub_from_skip (ic : bool) (r : regex) (repl : str) (n : nat) (s : str) :
  re_sub_from ic r repl n s = re_sub_from ic r repl 0 (skipn n s).
Proof.
  revert s; induction n as [|n IH]; intros s; [reflexivity|].
  destruct s as [|c s]; [reflexivity|]. simpl. apply IH.
Qed.

Lemma collapse_well_spaced (s : str) :
  well_spaced (re_sub false (Plus (Class isspace)) (lit " ") s) = true
  /\ match re_sub false (Plus (Class isspace)) (lit " ") s, s with
     | c :: _, x :: _ => isspace c = true -> isspace x = true
     | _, _ => True
     end.
Proof.
  unfold re_sub.
  remember (length s) as n eqn:Hn. revert s Hn.
  induction n as [n IH] using lt_wf_ind. intros s Hn.
  destruct s as [|c s']; [now split|].
  cbn [re_sub_from]. rewrite match_len_whitespace.
  destruct (isspace c) eqn:Hc.
  - rewrite re_sub_from_skip, skipn_lstrip.
    assert (Hlt : length (lstrip s') < n)
      by (pose proof (lstrip_length s'); simpl in Hn; lia).
    destruct (IH _ Hlt (lstrip s') eq_refl) as [W H].
    change (lit " " ++ ?t) with (32%N :: t).
    split; [|intros _; reflexivity].
    pose proof (lstrip_head s') as Hh.
    cbn [well_spaced]. rewrite W.
    destruct (re_sub_from false _ _ 0 (lstrip s')) as [|y out] eqn:E;
      [reflexivity|].
    destruct (lstrip s') as [|x t]; [discriminate|].
    destruct (isspace y) eqn:Hy; [|reflexivity].
    rewrite (H eq_refl) in Hh. discriminate.
  - assert (Hlt : length s' < n) by (simpl in Hn; lia).
    destruct (IH _ Hlt s' eq_refl) as [W H].
    split; [|congruence].
    cbn [well_spaced]. now rewrite Hc, W.
Qed.

Lemma well_spaced_no_newline (s : str) :
  well_spaced s = true -> forallb (fun c => negb (N.eqb nl c)) s = true.
Proof.
  induction s as [|c s IH]; [reflexivity|].
  cbn [well_spaced forallb]. intros H.
  apply andb_true_iff in H as [Hc Hs]. rewrite (IH Hs), andb_true_r.
  destruct (N.eqb_spec nl c) as [<-|]; [|reflexivity].
  change (isspace nl) with true in Hc. cbv iota in Hc.
  change (N.eqb nl 32) with false in Hc. discriminate.
Qed.

Lemma re_sub_newlines_id (s : str) :
  forallb (fun c => negb (N.eqb nl c)) s = true ->
  re_sub false (Plus (Lit nl)) [nl] s = s.
Proof.
  unfold re_sub. induction s as [|c s IH]; [reflexivity|].
  cbn [forallb]. intros H. apply andb_true_iff in H as [Hc Hs].
  apply negb_true_iff in Hc.
  assert (E : match_len false (Plus (Lit nl)) (c :: s) = None).
  { unfold match_len, Plus. rewrite rmatch_seq. cbn [rmatch lit_matches].
    now rewrite Hc. }
  cbn [re_sub_from]. rewrite E. now rewrite (IH Hs).
Qed.

Lemma fields_without_separator (sep : char -> bool) (s : str) :
  forallb (fun c => negb (sep c)) s = true -> fields sep s = [s].
Proof.
  induction s as [|c s IH]; [reflexivity|].
  cbn [forallb fields]. intros H. apply andb_true_iff in H as [Hc Hs].
  apply negb_true_iff in Hc. now rewrite Hc, (IH Hs).
Qed.

Lemma well_spaced_suffix (a b : str) :
  well_spaced (a ++ b) = true -> well_spaced b = true.
Proof.
  induction a as [|c a IH]; [trivial|].
  cbn [app well_spaced]. intros H. apply andb_true_iff in H as [_ H].
  now apply IH.
Qed.

Lemma well_spaced_prefix (a b : str) :
  well_spaced (a ++ b) = true -> well_spaced a = true.
Proof.
  induction a as [|c a IH]; [reflexivity|].
  cbn [app well_spaced]. intros H. apply andb_true_iff in H as [Hc H].
  rewrite (IH H), andb_true_r.
  destruct (isspace c); [|reflexivity].
  apply andb_true_iff in Hc as [Hc Hn]. rewrite Hc.
  destruct a; [reflexivity | exact Hn].
Qed.

Lemma rstrip_prefix (s : str) : exists t, s = rstrip s ++ t.
Proof.
  unfold rstrip. destruct (lstrip_suffix (rev s)) as (a & E & _).
  exists (rev a). rewrite <- rev_app_distr, <- E. now rewrite rev_involutive.
Qed.

Lemma well_spaced_strip (s : str) :
  well_spaced s = true -> well_spaced (strip s) = true.
Proof.
  intros H. unfold strip.
  destruct (rstrip_prefix (lstrip s)) as [t Et].
  apply well_spaced_prefix with t. rewrite <- Et.
  destruct (lstrip_suffix s) as (a & Ea & _).
  apply well_spaced_suffix with a. now rewrite <- Ea.
Qed.

(** The line filter never sees more than one line: the result is empty or
    the whole text, noise removed and whitespace collapsed. *)
Lemma clean_scraped_text_all_or_nothing (text : str) :
  let collapsed :=
    re_sub false (Plus (Class isspace)) (lit " ")
           (fold_left (fun cleaned pattern => re_sub true pattern [] cleaned)
                      noise_patterns text) in
  clean_scraped_text text = []
  \/ clean_scraped_text text = strip (strip collapsed).
Proof.
  cbv zeta. unfold clean_scraped_text.
  destruct (negb (nonempty text)); [now left|].
  set (collapsed := re_sub false (Plus (Class isspace)) (lit " ") _).
  destruct (collapse_well_spaced
              (fold_left (fun cleaned pattern => re_sub true pattern [] cleaned)
                         noise_patterns text)) as [W _].
  fold collapsed in W.
  pose proof (well_spaced_no_newline _ W) as Hnl.
  rewrite (re_sub_newlines_id _ Hnl).
  unfold split_on. rewrite (fields_without_separator _ _ Hnl).
  cbn [filter]. destruct (nonempty (strip collapsed)); [|now left].
  cbn [map filter].
  destruct ((10 <? length (strip collapsed))
            && negb (re_match false only_special (strip collapsed)));
    [now right | now left].
Qed.

(** The part of C7 that holds: the result has no whitespace but single
    spaces. *)
Lemma clean_scraped_text_well_spaced (text : str) :
  well_spaced (clean_scraped_text text) = true.
Proof.
  destruct (clean_scraped_text_all_or_nothing text) as [-> | ->];
    [reflexivity|].
  apply well_spaced_strip, well_spaced_strip.
  now destruct (collapse_well_spaced
                  (fold_left
                     (fun cleaned pattern => re_sub true pattern [] cleaned)
                     noise_patterns text)).
Qed.

(** C7. [clean_scraped_text] does not filter lines: whitespace is
    collapsed, newlines included, before the text is split, so a line of
    special characters and a line of five characters both survive. *)
Theorem clean_scraped_text_keeps_short_lines :
  split_on nl three_lines
  = [lit "Hand embroidered silk kurta"; lit "***"; lit "small"]
  /\ re_match false only_special (lit "***") = true
  /\ length (lit "small") = 5
  /\ clean_scraped_text three_lines
     = lit "Hand embroidered silk kurta *** small".
Proof. vm_compute. repeat split; reflexivity. Qed.

(** ** Webhook *)

Lemma returned_inj {A : Type} (a b : A) (s t : state) :
  Returned a s = Returned b t -> a = b /\ s = t.
Proof. intros H. injection H as -> ->. now split. Qed.

Lemma found_title_inj (e e' : option str) (s s' : Q) (t t' : str) :
  (e, s, Some t) = (e', s', Some t') -> t = t'.
Proof. congruence. Qed.

Lemma all_finite_listed (l ranked : list priced) (n : nat) :
  all_finite l = true -> Permutation l ranked ->
  all_finite (firstn n ranked) = true.
Proof.
  unfold all_finite. rewrite !forallb_forall. intros H P p Hp.
  apply H. apply (Permutation_in p (Permutation_sym P)).
  rewrite <- (firstn_skipn n ranked). apply in_or_app. now left.
Qed.


(** The webhook on a POST whose body decodes, step by step. *)
Lemma dialogflow_webhook_post (db : list PageContent) (b : json) (st : state) :
  dialogflow_webhook db (post b) st
  = bind (query_and_intent b)
      (fun query =>
         bind (log_request (fst query) (snd query))
           (fun _ =>
              bind (route_intent db (fst query) (snd query))
                (fun computed =>
                   bind (safety_check (fst query) computed)
                     (fun answer =>
                        bind (print (outbox ++ lit " Final Response: "
                                     ++ answer ++ [nl]))
                          (fun _ => ret (fulfillment answer)))))) st.
Proof.
  unfold dialogflow_webhook, post. cbn [method body].
  change (str_eqb (lit "POST") (lit "POST")) with true. cbv iota.
  unfold bind at 1 6. destruct (query_and_intent b st) as [[uq intent] st1|e st1];
    reflexivity.
Qed.

(** Printing leaves the state as it is. *)
Lemma print_returned (text : str) (st : state) (u : unit) (st' : state) :
  print text st = Returned u st' -> printable text = true /\ st' = st.
Proof.
  unfold print. destruct (printable text); [|discriminate].
  intros H. injection H as _ <-. now split.
Qed.





(** C8 (amended). The webhook guards JSON decoding only.  A body that does
    not decode is answered with status 400 and the fixed text
    "⚠️ Invalid request.", once the line that logs the decoding error is
    printed; a console that cannot encode that line makes the handler
    itself raise.  An exception raised while reading a decoded body, while
    printing the request log, or inside the intent handlers reaches the
    caller. *)
Theorem handler_exceptions_propagate (db : list PageContent) (b : json)
        (st : state) :
  (forall message,
      printable (cross_mark ++ lit " Invalid JSON: " ++ message) = true ->
      dialogflow_webhook db (mkRequest (lit "POST") (inl message)) st
      = Returned invalid_request st)
  /\ status invalid_request = 400
  /\ fulfillmentText invalid_request
     = Some (warning_sign ++ lit " Invalid request.")
  /\ (forall message,
         printable (cross_mark ++ lit " Invalid JSON: " ++ message) = false ->
         dialogflow_webhook db (mkRequest (lit "POST") (inl message)) st
         = Raised UnicodeEncodeError st)
  /\ (forall e st1,
         query_and_intent b st = Raised e st1 ->
         dialogflow_webhook db (post b) st = Raised e st1)
  /\ (forall user_query intent st1 e st2,
         query_and_intent b st = Returned (user_query, intent) st1 ->
         log_request user_query intent st1 = Raised e st2 ->
         dialogflow_webhook db (post b) st = Raised e st2)
  /\ (forall user_query intent st1 e st2,
         query_and_intent b st = Returned (user_query, intent) st1 ->
         log_request user_query intent st1 = Returned tt st1 ->
         route_intent db user_query intent st1 = Raised e st2 ->
         dialogflow_webhook db (post b) st = Raised e st2).
Proof.
  split; [|split; [reflexivity|split; [reflexivity|split; [|split; [|split]]]]].
  - intros message H. unfold dialogflow_webhook. cbn [method body].
    change (str_eqb (lit "POST") (lit "POST")) with true. cbv iota.
    unfold bind, print. now rewrite H.
  - intros message H. unfold dialogflow_webhook. cbn [method body].
    change (str_eqb (lit "POST") (lit "POST")) with true. cbv iota.
    unfold bind, print. now rewrite H.
  - intros e st1 E. rewrite dialogflow_webhook_post. unfold bind at 1.
    now rewrite E.
  - intros uq intent st1 e st2 E1 E2. rewrite dialogflow_webhook_post.
    unfold bind at 1. rewrite E1. cbn [fst snd]. unfold bind at 1.
    now rewrite E2.
  - intros uq intent st1 e st2 E1 E2 E3. rewrite dialogflow_webhook_post.
    unfold bind at 1. rewrite E1. cbn [fst snd]. unfold bind at 1.
    rewrite E2. unfold bind at 1. now rewrite E3.
Qed.


End Program.

(** * The properties on the sample store

    Closed instances over ASCII text, in the plain environment. *)

(** C1 (as stated) fails on the empty query against a page whose cleaned
    content is empty: the page scores 0.9, yet it is no candidate. *)
Lemma exact_phrase_empty_excerpt_unmatched :
  let p := mkPage (lit "https://silkandsaffron.store/pages/sale") []
                  (Some (lit "Sale")) (lit "Sale") (lit "page") true in
  mentions (lower plain []) price_keywords = false
  /\ str_in (lower plain []) (clean_content_of plain p) = true
  /\ list_in (url p) [] = false
  /\ fst (score_page plain (lower plain []) p) = (9 # 10)%Q
  /\ search_in_scraped_content plain [p] [] (3 # 10)%Q (initial_state [])
     = Returned (None, 0%Q, None) (initial_state []).
Proof. vm_compute. repeat split; reflexivity. Qed.

Lemma exact_phrase_match_witness :
  score_page plain (lower plain (lit "Red Silk Dress")) crimson
  = ((9 # 10)%Q, clean_content_of plain crimson)
  /\ search_in_scraped_content plain sample_store (lit "Red Silk Dress")
                               (3 # 10)%Q (initial_state [])
     = Returned (Some (clean_content_of plain crimson), (9 # 10)%Q,
                 Some (lit "Crimson Gown"))
                (mkState [url crimson] []).
Proof.
  assert (Hin : str_in (lower plain (lit "Red Silk Dress"))
                       (lower plain (clean_content_of plain crimson)) = true)
    by (vm_compute; reflexivity).
  destruct (exact_phrase_match plain [] [azure; meadow] crimson
              (lit "Red Silk Dress") (3 # 10)%Q (initial_state []) Hin)
    as [Hscore Hsearch].
  split; [exact Hscore|]. apply Hsearch.
  - reflexivity.
  - reflexivity.
  - reflexivity.
  - intros p' [<-|[<-|[]]]; vm_compute; discriminate.
  - vm_compute; discriminate.
Defined.

(** Both branches of the selection: "embroidered blue dress" has a best
    candidate at 0.8, returned without a draw; "blue dress" has two
    candidates at 0.6 and the draw 1 picks the second of them. *)
Lemma selection_policy_witness :
  (exists best rest selected st',
      Permutation (all_matches plain sample_store
                               (lower plain (lit "embroidered blue dress"))
                               (3 # 10)%Q []) (best :: rest)
      /\ In selected (firstn 3 (best :: rest))
      /\ search_in_scraped_content plain sample_store
                                   (lit "embroidered blue dress")
                                   (3 # 10)%Q (initial_state [4; 1])
         = Returned (Some (c_excerpt selected), c_score selected,
                     Some (c_title selected)) st'
      /\ c_title selected = lit "Crimson Gown"
      /\ random_source st' = [4; 1]
      /\ last (LAST_SUGGESTED_PRODUCTS st') [] = url (c_page selected))
  /\ (exists best rest selected st',
         Permutation (all_matches plain sample_store
                                  (lower plain (lit "blue dress"))
                                  (3 # 10)%Q []) (best :: rest)
         /\ In selected (firstn 3 (best :: rest))
         /\ search_in_scraped_content plain sample_store (lit "blue dress")
                                      (3 # 10)%Q (initial_state [1])
            = Returned (Some (c_excerpt selected), c_score selected,
                        Some (c_title selected)) st'
         /\ c_title selected = lit "Azure Kurta"
         /\ random_source st' = []
         /\ last (LAST_SUGGESTED_PRODUCTS st') [] = url (c_page selected)).
Proof.
  split.
  - destruct (selection_policy plain sample_store
                (lit "embroidered blue dress") (3 # 10)%Q
                (initial_state [4; 1]))
      as (best & rest & selected & st' & H1 & _ & _ & _ & _ & H6 & H7 & _
          & H9).
    + reflexivity.
    + vm_compute. discriminate.
    + exists best, rest, selected, st'.
      assert (E : search_in_scraped_content plain sample_store
                    (lit "embroidered blue dress") (3 # 10)%Q
                    (initial_state [4; 1])
                  = Returned (Some (clean_content_of plain crimson),
                              (8 # 10)%Q, Some (lit "Crimson Gown"))
                             (mkState [url crimson] [4; 1]))
        by (vm_compute; reflexivity).
      rewrite H7 in E. apply returned_inj in E as [Ev Est].
      apply found_title_inj in Ev as Et.
      repeat split; try assumption.
      now rewrite Est.
  - destruct (selection_policy plain sample_store (lit "blue dress")
                (3 # 10)%Q (initial_state [1]))
      as (best & rest & selected & st' & H1 & _ & _ & _ & _ & H6 & H7 & _
          & H9).
    + reflexivity.
    + vm_compute. discriminate.
    + exists best, rest, selected, st'.
      assert (E : search_in_scraped_content plain sample_store
                    (lit "blue dress") (3 # 10)%Q (initial_state [1])
                  = Returned (Some (clean_content_of plain azure),
                              (6 # 10)%Q, Some (lit "Azure Kurta"))
                             (mkState [url azure] []))
        by (vm_compute; reflexivity).
      rewrite H7 in E. apply returned_inj in E as [Ev Est].
      apply found_title_inj in Ev as Et.
      repeat split; try assumption.
      now rewrite Est.
Defined.

Lemma recent_suggestions_bounded_fifo_witness :
  bounded (initial_state [5])
  /\ exists u st',
       search_in_scraped_content plain sample_store (lit "Red Silk Dress")
                                 (3 # 10)%Q (mkState full_memory [])
       = Returned (Some (clean_content_of plain crimson), (9 # 10)%Q,
                   Some (lit "Crimson Gown")) st'
       /\ LAST_SUGGESTED_PRODUCTS st' = tl full_memory ++ [u].
Proof.
  destruct (recent_suggestions_bounded_fifo plain) as (_ & _ & Hreach & Hfifo).
  split.
  - apply (Hreach sample_store). apply reachable_init.
  - assert (E : search_in_scraped_content plain sample_store
                  (lit "Red Silk Dress") (3 # 10)%Q (mkState full_memory [])
                = Returned (Some (clean_content_of plain crimson), (9 # 10)%Q,
                            Some (lit "Crimson Gown"))
                           (mkState (tl full_memory ++ [url crimson]) []))
      by (vm_compute; reflexivity).
    destruct (Hfifo sample_store (lit "Red Silk Dress") (3 # 10)%Q
                (mkState full_memory []) _ _ _ _ eq_refl E)
      as (u & _ & _ & Hu).
    exists u. eexists. split; [exact E|]. apply Hu. reflexivity.
Defined.

(** C3 (as stated) fails: a row marked inactive is a match candidate, is
    returned by the matcher and is listed by the price path. *)
Lemma inactive_page_is_matched :
  is_active dormant = false
  /\ map c_page (all_matches plain [dormant] (lit "black woollen shawl")
                             (3 # 10)%Q []) = [dormant]
  /\ search_in_scraped_content plain [dormant] (lit "black woollen shawl")
                               (3 # 10)%Q (initial_state [])
     = Returned (Some (clean_content_of plain dormant), (9 # 10)%Q,
                 Some (lit "Dormant Shawl"))
                (mkState [url dormant] [])
  /\ handle_price_query plain [dormant] (lit "price")
     = Value (Some (price_header plain (lit "price")
                    ++ lit "1. Dormant Shawl - Rs.150" ++ [nl]
                    ++ price_footer plain (lit "price")),
              (95 # 100)%Q, Some (lit "Price Comparison")).
Proof. vm_compute. repeat split; reflexivity. Qed.

(** C5 (as stated) fails three times: with no priced product the price
    path answers with score 0; a query holding both an expensive-intent and
    a cheap-intent keyword is listed in ascending order; and a price of 310
    digits parses to infinity, on which the listing raises. *)
Lemma price_path_exceptions :
  handle_price_query plain [] (lit "cheap") = Value (None, 0%Q, None)
  /\ mentions (lit "expensive, not cheap") [lit "mehnga"; lit "expensive"]
     = true
  /\ map (fun p => int_of_float (p_price p))
         (selected_products (lit "expensive, not cheap")
            (products_with_price plain sample_store))
     = [Value 300%Z; Value 500%Z; Value 1200%Z]
  /\ handle_price_query plain [colossal] (lit "cheap") = Error OverflowError.
Proof. vm_compute. repeat split; reflexivity. Qed.

Lemma price_path_ranking_witness :
  exists ranked lines,
    Permutation
      (products_with_price plain
         (objects_filter_page_type (lit "product") sample_store)) ranked
    /\ StronglySorted (fun x y => float_le (p_price x) (p_price y) = true)
                      ranked
    /\ price_lines 1 (firstn 3 ranked) = Value lines
    /\ handle_price_query plain sample_store (lit "sasta suit")
       = Value (Some (price_header plain (lit "sasta suit") ++ lines
                      ++ price_footer plain (lit "sasta suit")),
                (95 # 100)%Q, Some (lit "Price Comparison")).
Proof.
  destruct (proj1 (proj2 (price_path_ranking plain)) sample_store
                  (lit "sasta suit"))
    as (ranked & Hperm & Hasc & _ & _ & Hfin & _).
  - vm_compute. discriminate.
  - destruct Hfin as (lines & Hl & Hq).
    + apply (all_finite_listed
               (products_with_price plain
                  (objects_filter_page_type (lit "product") sample_store)));
        [vm_compute; reflexivity | exact Hperm].
    + exists ranked, lines. split; [exact Hperm|].
      split; [apply Hasc; reflexivity|]. now split.
Defined.

(** C8 (as stated) fails: a body whose query text is a number makes the
    handler raise, and the webhook lets the exception through. *)
Lemma non_string_query_raises :
  dialogflow_webhook plain sample_store (post numeric_query_body)
                     (initial_state [])
  = Raised AttributeError (initial_state []).
Proof. vm_compute. reflexivity. Qed.

Lemma handler_exceptions_propagate_witness :
  dialogflow_webhook plain sample_store
                     (mkRequest (lit "POST") (inl (lit "Expecting value")))
                     (initial_state [])
  = Returned invalid_request (initial_state [])
  /\ dialogflow_webhook plain sample_store (post numeric_query_body)
                        (initial_state [])
     = Raised AttributeError (initial_state []).
Proof.
  destruct (handler_exceptions_propagate plain sample_store numeric_query_body
              (initial_state [])) as (Hbad & _ & _ & _ & _ & _ & Hroute).
  split.
  - apply Hbad. reflexivity.
  - apply (Hroute (JNum (5 # 1)%Q) (JStr (lit "LLMQueryIntent"))
                  (initial_state [])); reflexivity.
Defined.


Lemma price_query_leaves_memory_witness :
  exists found,
    handle_price_query plain sample_store (lower plain (lit "Cheap suit"))
    = Value found
    /\ search_in_scraped_content plain sample_store (lit "Cheap suit")
                                 (3 # 10)%Q (mkState full_memory [2; 7])
       = Returned found (mkState full_memory [2; 7]).
Proof.
  assert (E : exists found,
               handle_price_query plain sample_store
                                  (lower plain (lit "Cheap suit"))
               = Value found)
    by (vm_compute; eexists; reflexivity).
  destruct E as [found E]. exists found. split; [exact E|].
  apply (proj1 (price_query_leaves_memory plain sample_store
                  (lit "Cheap suit") (3 # 10)%Q (mkState full_memory [2; 7])
                  eq_refl)).
  exact E.
Defined.
